(** * The GloVe subset generator: [data/generate_glove_subset.py]

    A shallow embedding of the script that downloads the GloVe 6B vectors,
    keeps the first [VOCAB_SIZE] lines plus a fixed list of required words,
    rounds every component to six decimals and writes the table as JSON.

    Conventions of the embedding.
    - A Python [str] is a [string]; each [ascii] is a code point below 256.
    - A Python [int] is a [Z].
    - A Python [float] is a binary64 value, [spec_float] of the standard
      library, handled with exact integer arithmetic.
    - A [dict] with [str] keys is a [gmap string _], a [set] a [gset].
    - A raised exception is the [Raise] branch of [result]. *)

From Stdlib Require Import ZArith Ascii String.
From Stdlib Require Import Floats.SpecFloat.
From stdpp Require Import gmap strings list fin_maps.

Local Open Scope Z_scope.
Set Warnings "-register-all,-clear-no-such-hyp".

(** ** Exceptions *)

Inductive exn : Type :=
  | IndexError          (* [parts[0]] on an empty list *)
  | ValueError          (* [float(x)] on a token that is not a number *)
  | URLError            (* [urlretrieve]: no connection *)
  | ContentTooShortError (* [urlretrieve]: transfer cut short *)
  | BadZipFile          (* [zipfile.ZipFile] on something that is no archive,
                           [zf.extract] of a member whose checksum is wrong *)
  | KeyError            (* [zf.extract] of a member the archive lacks *)
  | ZeroDivisionError   (* [reporthook] when the reply announces no bytes *)
  | ZlibError           (* [zf.extract] of a member whose data are broken *)
  | RuntimeError        (* [zf.extract] of a member that is encrypted *)
  | NotImplementedError. (* [zf.extract] of a member packed by a method
                            that is not supported *)

Inductive result (A : Type) : Type :=
  | Ok (a : A)
  | Raise (e : exn).
Arguments Ok {A} a.
Arguments Raise {A} e.

#[global] Instance result_ret : MRet result := fun A a => Ok a.
#[global] Instance result_bind : MBind result := fun A B f r =>
  match r with
  | Ok a => f a
  | Raise e => Raise e
  end.
#[global] Instance result_fmap : FMap result := fun A B f r =>
  match r with
  | Ok a => Ok (f a)
  | Raise e => Raise e
  end.

(** The call comes back with a value. *)
Definition returns {A} (r : result A) : Prop := exists a, r = Ok a.

(** ** Python strings: [str.strip] and [str.split] without arguments *)

Module Str.

(** [str.isspace] on the code points below 256:
    TAB LF VT FF CR, FS GS RS US, SPACE, NEL and NBSP. *)
Definition isspace (c : ascii) : bool :=
  match N_of_ascii c with
  | 9 | 10 | 11 | 12 | 13 | 28 | 29 | 30 | 31 | 32 | 133 | 160 => true
  | _ => false
  end%N.

Fixpoint lstrip (s : string) : string :=
  match s with
  | String c s' => if isspace c then lstrip s' else s
  | EmptyString => EmptyString
  end.

Fixpoint rstrip (s : string) : string :=
  match s with
  | String c s' =>
      match rstrip s' with
      | EmptyString => if isspace c then EmptyString else String c EmptyString
      | r => String c r
      end
  | EmptyString => EmptyString
  end.

Definition strip (s : string) : string := rstrip (lstrip s).

(** [s.split()]: the maximal runs of characters that are not whitespace,
    from left to right; [cur] is the run being read. *)
Definition flush (cur : string) : list string :=
  match cur with
  | EmptyString => []
  | _ => [cur]
  end.

Fixpoint split_go (cur : string) (s : string) : list string :=
  match s with
  | String c s' =>
      if isspace c then flush cur ++ split_go EmptyString s'
      else split_go (cur +:+ String c EmptyString) s'
  | EmptyString => flush cur
  end.

Definition split (s : string) : list string := split_go EmptyString s.

(** A line made of whitespace only (the empty line included). *)
Fixpoint blank (s : string) : bool :=
  match s with
  | String c s' => isspace c && blank s'
  | EmptyString => true
  end.

End Str.

(** ** Python floats: [float(str)] and [round(x, 6)]

    A [float] is an IEEE 754 binary64 value.  Conversions from decimal are
    correctly rounded (to nearest, ties to even), as CPython's are; they are
    computed here on exact integers. *)

Module Float.

Abbreviation float := spec_float.

Definition prec : Z := 53.
Definition emax : Z := 1024.

(** The binary64 value nearest to [p / q], with the sign [neg]. *)
Definition of_ratio (neg : bool) (p q : positive) : float :=
  let '(m, e, l) := SFdiv_core_binary prec emax (Zpos p) 0 (Zpos q) 0 in
  binary_round_aux prec emax neg m e l.

(** The binary64 value nearest to [digits * 10 ^ exp10]. *)
Definition of_decimal (neg : bool) (digits exp10 : Z) : float :=
  match digits with
  | Zpos d =>
      if 0 <=? exp10 then of_ratio neg (d * Z.to_pos (10 ^ exp10)) 1
      else of_ratio neg d (Z.to_pos (10 ^ (- exp10)))
  | _ => S754_zero neg
  end.

(** *** [float(s)] *)

(** The value of a decimal digit, [0] to [9] being the code points 48 to 57. *)
Definition digit (c : ascii) : option Z :=
  let n := Z.of_N (N_of_ascii c) in
  if (48 <=? n) && (n <=? 57) then Some (n - 48) else None.

Definition isdigit (c : ascii) : bool :=
  match digit c with Some _ => true | None => false end.

Definition is_underscore (c : ascii) : bool :=
  match c with "_"%char => true | _ => false end.

(** Digit grouping: an underscore is dropped when it stands between two
    digits and makes the literal invalid anywhere else; [prev] is the
    character read before [s]. *)
Fixpoint strip_underscores (prev : ascii) (s : string) : option string :=
  match s with
  | String c s' =>
      if is_underscore c then
        if isdigit prev then strip_underscores c s' else None
      else if is_underscore prev && negb (isdigit c) then None
      else String c <$> strip_underscores c s'
  | EmptyString => if is_underscore prev then None else Some EmptyString
  end.

Definition parse_sign (s : string) : bool * string :=
  match s with
  | String "-" s' => (true, s')
  | String "+" s' => (false, s')
  | _ => (false, s)
  end.

(** The longest prefix of digits: its value on top of [acc], the number
    of digits read on top of [n], and what follows. *)
Fixpoint span_digits (acc n : Z) (s : string) : Z * Z * string :=
  match s with
  | String c s' =>
      match digit c with
      | Some d => span_digits (10 * acc + d) (n + 1) s'
      | None => (acc, n, s)
      end
  | EmptyString => (acc, n, s)
  end.

Definition lower (c : ascii) : ascii :=
  let n := N_of_ascii c in
  if ((65 <=? n) && (n <=? 90))%N then ascii_of_N (n + 32) else c.

Fixpoint lowercase (s : string) : string :=
  match s with
  | String c s' => String (lower c) (lowercase s')
  | EmptyString => EmptyString
  end.

Definition parse_inf_or_nan (neg : bool) (s : string) : option float :=
  let l := lowercase s in
  if String.eqb l "inf" || String.eqb l "infinity" then Some (S754_infinity neg)
  else if String.eqb l "nan" then Some S754_nan
  else None.

(** The exponent part, which must reach the end of the literal. *)
Definition parse_exponent (s : string) : option Z :=
  match s with
  | EmptyString => Some 0
  | String c s' =>
      if Ascii.eqb (lower c) "e" then
        let '(eneg, s1) := parse_sign s' in
        let '(v, n, rest) := span_digits 0 0 s1 in
        match rest with
        | EmptyString => if n =? 0 then None else Some (if eneg then - v else v)
        | _ => None
        end
      else None
  end.

Definition parse_decimal (neg : bool) (s : string) : option float :=
  let '(i, ni, s1) := span_digits 0 0 s in
  let '(m, nf, s2) :=
    match s1 with
    | String "." s1' => span_digits i 0 s1'
    | _ => (i, 0, s1)
    end in
  if ni + nf =? 0 then None
  else e ← parse_exponent s2; Some (of_decimal neg m (e - nf)).

(** The whitespace that [float] takes off both ends of its argument: that
    of [str.isspace] but for the separators FS, GS, RS and US, which [float]
    refuses. *)
Definition isspace (c : ascii) : bool :=
  match N_of_ascii c with
  | 9 | 10 | 11 | 12 | 13 | 32 | 133 | 160 => true
  | _ => false
  end%N.

Fixpoint lstrip (s : string) : string :=
  match s with
  | String c s' => if isspace c then lstrip s' else s
  | EmptyString => EmptyString
  end.

Fixpoint rstrip (s : string) : string :=
  match s with
  | String c s' =>
      match rstrip s' with
      | EmptyString => if isspace c then EmptyString else String c EmptyString
      | r => String c r
      end
  | EmptyString => EmptyString
  end.

Definition strip (s : string) : string := rstrip (lstrip s).

Definition py_float (s : string) : result float :=
  let parsed :=
    s1 ← strip_underscores "000" s;
    let '(neg, s2) := parse_sign (strip s1) in
    match parse_inf_or_nan neg s2 with
    | Some x => Some x
    | None => parse_decimal neg s2
    end in
  match parsed with
  | Some x => Ok x
  | None => Raise ValueError
  end.

(** *** [round(x, 6)] *)

(** The integer nearest to [p / q], ties to the even one. *)
Definition nearest_even (p : Z) (q : positive) : Z :=
  let n := p / Zpos q in
  match (2 * (p mod Zpos q)) ?= Zpos q with
  | Lt => n
  | Gt => n + 1
  | Eq => if Z.even n then n else n + 1
  end.

(** [x] is rounded, exactly, to the nearest multiple of [10 ^ (-6)] and the
    decimal obtained is converted back; zeros, infinities and NaN are
    returned as they are, and the sign is kept. *)
Definition py_round6 (x : float) : float :=
  match x with
  | S754_finite neg m e =>
      let n :=
        if 0 <=? e then Zpos m * 2 ^ e * 10 ^ 6
        else nearest_even (Zpos m * 10 ^ 6) (Z.to_pos (2 ^ (- e))) in
      of_decimal neg n (-6)
  | _ => x
  end.

(** [y] is the float of a decimal [n * 10 ^ (-6)], with [n] an integer
    at most half a unit away from [x * 10 ^ 6]; here [x] is
    [m * 2 ^ e], so that the distance is taken on integers. *)
Definition six_decimals (x y : float) : Prop :=
  match x with
  | S754_finite neg m e =>
      ∃ n : Z,
        y = of_decimal neg n (-6) ∧
        2 * Z.abs (n * 2 ^ Z.max 0 (- e) - Zpos m * 2 ^ Z.max 0 e * 10 ^ 6)
        ≤ 2 ^ Z.max 0 (- e)
  | _ => y = x
  end.

End Float.

(** ** JSON documents

    [json.dump] and [json.load] are taken at the level of the document they
    write and read: an object is the sequence of its members.  The text
    encoding of a document is the [json] library's business.  A number is
    any float: Python writes [NaN] and [Infinity] too, and reads them back. *)

Module Json.
Import Float.

Inductive json : Type :=
  | JNumber (x : float)
  | JString (s : string)
  | JArray (items : list json)
  | JObject (members : list (string * json)).

(** [json.dump(embeddings, f)] for a [dict] from [str] to lists of floats:
    one member for each key.  The members come in the order in which the map
    lists them, which need not be the order of insertion that Python keeps;
    no statement below depends on that order. *)
Definition dump (d : gmap string (list float)) : json :=
  JObject (prod_map id (fun v => JArray (JNumber <$> v)) <$> map_to_list d).

Definition as_number (j : json) : option float :=
  match j with JNumber x => Some x | _ => None end.

Definition as_vector (j : json) : option (list float) :=
  match j with JArray items => mapM as_number items | _ => None end.

Definition as_entry (kv : string * json) : option (string * list float) :=
  v ← as_vector kv.2; Some (kv.1, v).

(** [json.load(f)], read back as a table of vectors: the members are
    entered from left to right, a repeated name keeping its last value. *)
Definition load (j : json) : option (gmap string (list float)) :=
  match j with
  | JObject members =>
      foldl (fun m kv => <[kv.1 := kv.2]> m) ∅ <$> mapM as_entry members
  | _ => None
  end.

End Json.

(** ** The script *)

Module Glove.
Import Float Json.

Definition GLOVE_URL : string := "https://nlp.stanford.edu/data/glove.6B.zip".
Definition GLOVE_ZIP : string := "glove.6B.zip".
Definition GLOVE_TXT : string := "glove.6B.50d.txt".
Definition OUTPUT_FILE : string := "glove-50d-5k.json".
Definition VOCAB_SIZE : Z := 5000.

Definition REQUIRED_WORDS : gset string :=
  {[ "king"; "queen"; "man"; "woman"; "prince"; "princess";
     "boy"; "girl"; "father"; "mother"; "son"; "daughter";
     "brother"; "sister"; "husband"; "wife"; "uncle"; "aunt";
     "grandfather"; "grandmother"; "lord"; "lady"; "duke"; "duchess";
     "emperor"; "empress"; "sir"; "madam";
     "he"; "she"; "him"; "her"; "his"; "hers"; "male"; "female";
     "france"; "paris"; "germany"; "berlin"; "japan"; "tokyo";
     "italy"; "rome"; "spain"; "madrid"; "china"; "beijing";
     "russia"; "moscow"; "brazil"; "india"; "delhi"; "canada"; "ottawa";
     "doctor"; "nurse"; "engineer"; "teacher"; "programmer"; "scientist";
     "lawyer"; "pilot"; "mechanic"; "secretary"; "professor"; "surgeon";
     "accountant"; "architect"; "carpenter"; "chef"; "dentist";
     "electrician"; "firefighter"; "journalist"; "librarian"; "manager";
     "musician"; "painter"; "pharmacist"; "plumber"; "police";
     "receptionist"; "soldier"; "veterinarian";
     "cat"; "dog"; "horse"; "bird"; "fish"; "lion"; "tiger"; "bear";
     "wolf"; "eagle"; "snake"; "rabbit";
     "happy"; "sad"; "angry"; "afraid"; "surprised"; "calm"; "excited";
     "anxious"; "proud"; "love"; "hate"; "fear"; "joy";
     "pizza"; "sushi"; "pasta"; "rice"; "bread"; "cheese";
     "walking"; "walked"; "running"; "ran"; "swimming"; "swam";
     "flying"; "flew";
     "computer"; "technology"; "algorithm"; "data"; "intelligence";
     "artificial"; "ethics"; "bias"; "fair"; "unfair"; "justice";
     "equality"; "freedom"; "privacy"; "safety"; "risk" ]}.

(** *** [download_glove] *)

(** What is wrong with the data of a member: the checksum at their end, or
    the compressed stream itself. *)
Inductive damage : Type := BadChecksum | BadStream.

(** What keeps a member closed: a password, or a method of compression that
    [zipfile] does not have. *)
Inductive lock : Type := Encrypted | UnsupportedMethod.

(** A member of an archive, by what [zf.extract] makes of it: its lines;
    or, its data being damaged, the lines that reach the target before the
    error; or an error before the target is created. *)
Inductive entry : Type :=
  | Sound (lines : list string)
  | Damaged (written : list string) (d : damage)
  | Locked (l : lock).

(** What a path holds: a text file, given by its lines, a zip archive,
    given by its members, or a file that is neither: an empty file, the
    stump of a transfer that was cut. *)
Inductive content : Type :=
  | Text (lines : list string)
  | Archive (members : gmap string entry)
  | Stump.

(** What the server does when it is asked for [GLOVE_URL]: it is out of
    reach; it announces a length of 0 bytes; it sends less than it
    announced; or it sends a file. *)
Inductive response : Type :=
  | NoConnection
  | ZeroLength
  | CutShort
  | Served (c : content).

Inductive message : Type :=
  | AlreadyExists | Downloading | DownloadComplete | Extracting | Extracted.

(** What a call does to the outside, in order.  The progress lines of
    [reporthook] belong to the [Fetch] they accompany; its division by the
    length announced is what fails on the reply [ZeroLength]. *)
Inductive effect : Type :=
  | Print (m : message)
  | Fetch (url : string)
  | WriteFile (path : string).

Definition exists_ (path : string) (fs : gmap string content) : bool :=
  bool_decide (is_Some (fs !! path)).

(** [urllib.request.urlretrieve(GLOVE_URL, GLOVE_ZIP, reporthook)]: the
    target is opened for writing, then [reporthook] is called a first time,
    then the blocks are read and written. *)
Definition urlretrieve (net : response) (fs : gmap string content)
  : gmap string content * list effect * result unit :=
  match net with
  | NoConnection => (fs, [Fetch GLOVE_URL], Raise URLError)
  | ZeroLength =>
      (<[GLOVE_ZIP := Stump]> fs, [Fetch GLOVE_URL; WriteFile GLOVE_ZIP],
       Raise ZeroDivisionError)
  | CutShort =>
      (<[GLOVE_ZIP := Stump]> fs, [Fetch GLOVE_URL; WriteFile GLOVE_ZIP],
       Raise ContentTooShortError)
  | Served c =>
      (<[GLOVE_ZIP := c]> fs, [Fetch GLOVE_URL; WriteFile GLOVE_ZIP], Ok tt)
  end.

(** The error of a member that does not come out. *)
Definition damage_error (d : damage) : exn :=
  match d with
  | BadChecksum => BadZipFile
  | BadStream => ZlibError
  end.

Definition lock_error (l : lock) : exn :=
  match l with
  | Encrypted => RuntimeError
  | UnsupportedMethod => NotImplementedError
  end.

(** [with zipfile.ZipFile(GLOVE_ZIP, 'r') as zf: zf.extract(GLOVE_TXT, '.')]:
    the member is looked up and opened, then the target is created and the
    data are copied into it; damaged data fail in the copy, and the target
    stays, with what had been written. *)
Definition extract (fs : gmap string content)
  : gmap string content * list effect * result unit :=
  match fs !! GLOVE_ZIP with
  | Some (Archive members) =>
      match members !! GLOVE_TXT with
      | Some (Sound lines) =>
          (<[GLOVE_TXT := Text lines]> fs, [WriteFile GLOVE_TXT], Ok tt)
      | Some (Damaged written d) =>
          (<[GLOVE_TXT := Text written]> fs, [WriteFile GLOVE_TXT],
           Raise (damage_error d))
      | Some (Locked l) => (fs, [], Raise (lock_error l))
      | None => (fs, [], Raise KeyError)
      end
  | _ => (fs, [], Raise BadZipFile)
  end.

Definition download_glove (net : response) (fs : gmap string content)
  : gmap string content * list effect * result unit :=
  if exists_ GLOVE_TXT fs then (fs, [Print AlreadyExists], Ok tt)
  else
    let '(fs1, log1, r1) :=
      if negb (exists_ GLOVE_ZIP fs) then
        let '(fs', log, r) := urlretrieve net fs in
        (fs', Print Downloading :: log ++
              match r with Ok _ => [Print DownloadComplete] | Raise _ => [] end,
         r)
      else (fs, [], Ok tt) in
    match r1 with
    | Raise e => (fs1, log1, Raise e)
    | Ok _ =>
        let '(fs2, log2, r2) := extract fs1 in
        (fs2, log1 ++ Print Extracting :: log2 ++
              match r2 with Ok _ => [Print Extracted] | Raise _ => [] end,
         r2)
    end.

(** Two calls in a row: the second one runs when the first has returned. *)
Definition download_glove_twice (net1 net2 : response)
    (fs : gmap string content)
  : gmap string content * list effect * result unit :=
  let '(fs1, log1, r1) := download_glove net1 fs in
  match r1 with
  | Raise e => (fs1, log1, Raise e)
  | Ok _ =>
      let '(fs2, log2, r2) := download_glove net2 fs1 in
      (fs2, log1 ++ log2, r2)
  end.

Definition is_fetch (e : effect) : bool :=
  match e with Fetch _ => true | _ => false end.
Definition is_write (e : effect) : bool :=
  match e with WriteFile _ => true | _ => false end.

(** The number of times the network was used. *)
Definition fetches (log : list effect) : nat := length (filter is_fetch log).
Definition writes (log : list effect) : nat := length (filter is_write log).

(** *** [generate_subset] *)

(** The lines written to the standard output.  [Wrote] stands for the line
    that gives the size of the file. *)
Inductive event : Type :=
  | Reading
  | Progress (lines kept : Z)
  | Total (kept : Z)
  | MissingWords (missing : gset string)
  | AllFound
  | Writing
  | Wrote.

(** The variables of the loop, and the output so far. *)
Record loop_state : Type := {
  embeddings : gmap string (list float);
  line_count : Z;
  stdout : list event
}.

(** What a run that returns leaves behind: the table it built, what it
    printed, and the document in [OUTPUT_FILE]. *)
Record outcome : Type := {
  table : gmap string (list float);
  printed : list event;
  output_file : json
}.

(** [line.strip().split()] *)
Definition parts_of (line : string) : list string :=
  Str.split (Str.strip line).

Section Extraction.
(** The two globals the loop reads. *)
Variable vocab_size : Z.
Variable required_words : gset string.

(** [line_count < VOCAB_SIZE or word in REQUIRED_WORDS] *)
Definition keep (count : Z) (word : string) : bool :=
  (count <? vocab_size) || bool_decide (word ∈ required_words).

(** [parts[0]] *)
Definition first (parts : list string) : result string :=
  match parts with
  | word :: _ => Ok word
  | [] => Raise IndexError
  end.

(** [[round(float(x), 6) for x in parts[1:]]], given [parts[1:]] *)
Definition vector (tokens : list string) : result (list float) :=
  mapM (fun x => py_round6 <$> py_float x) tokens.

(** The end of a turn: [line_count += 1] and, every 50,000 lines, the
    progress line; [emb] is the table after the turn. *)
Definition advance (st : loop_state) (emb : gmap string (list float))
  : loop_state :=
  let count := line_count st + 1 in
  {| embeddings := emb;
     line_count := count;
     stdout := stdout st ++
               if count mod 50000 =? 0
               then [Progress count (Z.of_nat (size emb))]
               else [] |}.

(** One turn of [for line in f]. *)
Definition body (st : loop_state) (line : string) : result loop_state :=
  let parts := parts_of line in
  word ← first parts;
  emb ← (if keep (line_count st) word then
           vec ← vector (tail parts);
           mret (if bool_decide (length vec = 50%nat)
                 then <[word := vec]> (embeddings st)
                 else embeddings st)
         else mret (embeddings st));
  mret (advance st emb).

Fixpoint loop (st : loop_state) (lines : list string) : result loop_state :=
  match lines with
  | line :: rest => st' ← body st line; loop st' rest
  | [] => Ok st
  end.

Definition start : loop_state :=
  {| embeddings := ∅; line_count := 0; stdout := [Reading] |}.

(** The whole function, on the lines of [GLOVE_TXT]. *)
Definition generate_subset_with (lines : list string) : result outcome :=
  st ← loop start lines;
  let missing := required_words ∖ dom (embeddings st) in
  mret {| table := embeddings st;
          printed := stdout st ++
                     [Total (Z.of_nat (size (embeddings st)));
                      if bool_decide (missing = ∅) then AllFound
                      else MissingWords missing;
                      Writing; Wrote];
          output_file := dump (embeddings st) |}.

End Extraction.

Definition generate_subset : list string → result outcome :=
  generate_subset_with VOCAB_SIZE REQUIRED_WORDS.

(** *** Vocabulary of the statements *)

(** The word of a line and the number of tokens that follow it. *)
Definition word_of (line : string) : option string := head (parts_of line).
Definition dimension (line : string) : nat := length (tail (parts_of line)).

(** A token that [float] accepts. *)
Definition numeric (token : string) : Prop := returns (py_float token).

(** The words of the first [k] lines together with the required words
    that are the word of some line. *)
Definition first_and_required (k : Z) (required : gset string)
    (lines : list string) : gset string :=
  list_to_set (omap word_of (take (Z.to_nat k) lines)) ∪
  (required ∩ list_to_set (omap word_of lines)).

(** The line, read when [count] lines have gone before it, puts [word] in
    the table: it is kept and carries exactly 50 tokens after the word. *)
Definition selects (k : Z) (required : gset string)
    (count : Z) (line word : string) : Prop :=
  word_of line = Some word ∧ keep k required count word = true ∧
  dimension line = 50%nat.

Definition is_progress (e : event) : bool :=
  match e with Progress _ _ => true | _ => false end.

(** The state [st] with the cursor at [count]. *)
Definition with_count (st : loop_state) (count : Z) : loop_state :=
  {| embeddings := embeddings st; line_count := count; stdout := stdout st |}.

(** What a turn leaves to see, the cursor apart: the table and the output. *)
Definition visible (r : result loop_state)
  : result (gmap string (list float) * list event) :=
  (fun st => (embeddings st, stdout st)) <$> r.

(** The cursor bears on a turn through the rank test alone: two cursors
    that the test does not tell apart give the same table and output. *)
Definition cursor_only_ranks (k : Z) (required : gset string) : Prop :=
  ∀ st count1 count2 line,
    (count1 <? k) = (count2 <? k) →
    visible (body k required (with_count st count1) line)
    = visible (body k required (with_count st count2) line).

(** The member names of a JSON object. *)
Definition names (j : json) : list string :=
  match j with
  | JObject members => members.*1
  | _ => []
  end.

End Glove.

(** ** Small source files *)

Module Sample.

(** [n] tokens equal to [token], a space before each. *)
Fixpoint repeated (n : nat) (token : string) : string :=
  match n with
  | O => ""
  | S n' => " " +:+ token +:+ repeated n' token
  end.

(** A line of the file: the word, [n] tokens and the line feed. *)
Definition row (word token : string) (n : nat) : string :=
  word +:+ repeated n token +:+ String "010" "".

(** Three lines, for a threshold of 2 and the required word "king". *)
Definition three : list string :=
  [row "alpha" "0.1" 50; row "beta" "0.2" 50; row "king" "0.1234567" 50].

(** A file whose second line is one component short. *)
Definition short : list string :=
  [row "the" "0.5" 50; row "king" "0.5" 49].

(** A file that gives the same word twice. *)
Definition twice : list string :=
  [row "the" "0.5" 50; row "the" "0.25" 50].

(** A file whose second line is empty. *)
Definition gap : list string :=
  [row "the" "0.5" 50; String "010" ""; row "king" "0.5" 50].

(** A file whose second line has a component that is no number. *)
Definition garbled : list string :=
  [row "the" "0.5" 50; row "king" "n/a" 50].

(** An empty working directory, and a server that sends an archive with
    the vectors in it. *)
Definition archive : Glove.content :=
  Glove.Archive {[ Glove.GLOVE_TXT := Glove.Sound three ]}.

End Sample.

(** ** The block under [if __name__ == '__main__'] *)

Module Script.
Import Json Glove.

(** The directory of the script, where [os.chdir] takes the run: [output]
    is what the path [OUTPUT_FILE] holds, [files] what the other paths
    hold. *)
Record disk : Type := {
  files : gmap string content;
  output : option json
}.

Section Main.
(** [open(GLOVE_TXT, 'r', encoding='utf-8')] and the lines read from it,
    given what the path holds.  What a path that holds no text gives is left
    open; a text file gives its lines, see [reads_text]. *)
Variable read_lines : option content → result (list string).

(** [generate_subset()] in the directory: the output file is opened only
    after the loop, so that a run that raises leaves it as it was. *)
Definition generate_subset_on (d : disk)
  : disk * list effect * result outcome :=
  match read_lines (files d !! GLOVE_TXT) with
  | Ok lines =>
      match generate_subset lines with
      | Ok o =>
          ({| files := files d; output := Some (output_file o) |},
           [WriteFile OUTPUT_FILE], Ok o)
      | Raise e => (d, [], Raise e)
      end
  | Raise e => (d, [], Raise e)
  end.

(** [download_glove()] then [generate_subset()]; the value returned is what
    [generate_subset] built and printed, and the closing line of the script
    is printed exactly when the result is [Ok]. *)
Definition main (net : response) (d : disk)
  : disk * list effect * result outcome :=
  let '(fs1, log1, r1) := download_glove net (files d) in
  let d1 := {| files := fs1; output := output d |} in
  match r1 with
  | Ok _ =>
      let '(d2, log2, r2) := generate_subset_on d1 in
      (d2, log1 ++ log2, r2)
  | Raise e => (d1, log1, Raise e)
  end.

End Main.

(** A text file gives its lines. *)
Definition reads_text (read_lines : option content → result (list string))
  : Prop :=
  ∀ lines, read_lines (Some (Text lines)) = Ok lines.

(** A reader that takes anything but a text file for undecodable
    ([UnicodeDecodeError] is a [ValueError]). *)
Definition read_strict (c : option content) : result (list string) :=
  match c with
  | Some (Text lines) => Ok lines
  | _ => Raise ValueError
  end.

End Script.

(** ** Vocabulary of the further properties *)

Module Terms.
Import Float Json Glove.

(** No character of [s] is whitespace. *)
Fixpoint solid (s : string) : bool :=
  match s with
  | String c s' => negb (Str.isspace c) && solid s'
  | EmptyString => true
  end.

(** What [split] gives: a string that is not empty and has no whitespace. *)
Definition is_token (s : string) : Prop := s ≠ "" ∧ solid s = true.

(** [" ".join(tokens)] *)
Fixpoint unwords (tokens : list string) : string :=
  match tokens with
  | [] => ""
  | t :: rest =>
      match rest with
      | [] => t
      | _ => t +:+ " " +:+ unwords rest
      end
  end.

(** The turn for [line], read when [count] lines have gone before it, comes
    to its end: the line has a word and, if it is kept, numbers after it. *)
Definition passes (k : Z) (required : gset string)
    (count : Z) (line : string) : Prop :=
  ∃ word tokens, parts_of line = word :: tokens ∧
                 (keep k required count word = true → Forall numeric tokens).

(** The word of the line is a required word. *)
Definition gives_required (required : gset string) (line : string) : bool :=
  match word_of line with
  | Some word => bool_decide (word ∈ required)
  | None => false
  end.

(** The archive a call works on when the text file is missing: the one in
    place or, without one, the one the server sends. *)
Definition consulted (net : response) (fs : gmap string content)
  : option content :=
  match fs !! GLOVE_ZIP with
  | Some c => Some c
  | None => match net with Served c => Some c | _ => None end
  end.

(** A string of decimal digits. *)
Fixpoint all_digits (s : string) : bool :=
  match s with
  | String c s' => isdigit c && all_digits s'
  | EmptyString => true
  end.

(** No character of [s] is an underscore. *)
Fixpoint no_underscore (s : string) : bool :=
  match s with
  | String c s' => negb (is_underscore c) && no_underscore s'
  | EmptyString => true
  end.

(** An exponent part: nothing, or [e], an optional sign and digits. *)
Definition exponent (s : string) : Prop :=
  s = "" ∨
  ∃ sign digits, s = "e" +:+ sign +:+ digits ∧
                 (sign = "" ∨ sign = "-" ∨ sign = "+") ∧
                 digits ≠ "" ∧ all_digits digits = true.

(** A number as the vector files write them: an optional minus sign, digits,
    a point, digits, and possibly an exponent. *)
Definition decimal (s : string) : Prop :=
  ∃ (neg : bool) (whole frac expo : string),
    s = (if neg then "-" else "") +:+ whole +:+ "." +:+ frac +:+ expo ∧
    whole ≠ "" ∧ all_digits whole = true ∧ all_digits frac = true ∧
    exponent expo.

(** A line as the vector files have them: a word and numbers, one space
    before each number, and a line feed. *)
Definition glove_line (line : string) : Prop :=
  ∃ word numbers,
    line = unwords (word :: numbers) +:+ String "010" "" ∧
    is_token word ∧ Forall decimal numbers.

(** A line of the format with exactly 50 numbers. *)
Definition vector_line (line : string) : Prop :=
  ∃ word numbers,
    line = unwords (word :: numbers) +:+ String "010" "" ∧
    is_token word ∧ Forall decimal numbers ∧ length numbers = 50%nat.

(** The lines of the member [GLOVE_TXT], when [c] is an archive that has it
    and gives it whole. *)
Definition member (c : content) : option (list string) :=
  match c with
  | Archive members =>
      match members !! GLOVE_TXT with
      | Some (Sound lines) => Some lines
      | _ => None
      end
  | _ => None
  end.

(** The error on which [c] leaves the directory as it is: [c] is no archive,
    or it lacks the member [GLOVE_TXT], or the member cannot be opened. *)
Definition refusal (c : content) : option exn :=
  match c with
  | Archive members =>
      match members !! GLOVE_TXT with
      | None => Some KeyError
      | Some (Locked l) => Some (lock_error l)
      | Some _ => None
      end
  | _ => Some BadZipFile
  end.

(** What a member with damaged data leaves as the text file, and the error
    of its extraction. *)
Definition remains (c : content) : option (list string * exn) :=
  match c with
  | Archive members =>
      match members !! GLOVE_TXT with
      | Some (Damaged written d) => Some (written, damage_error d)
      | _ => None
      end
  | _ => None
  end.

End Terms.

Import Float Json Glove.

(** * Facts about the embedding *)

(** ** The embedding at work *)

Section Checks.

Example split_line :
  parts_of (String "009" " king  0.5" +:+ String "009" "-1e-3 " +:+ String "010" "")
  = ["king"; "0.5"; "-1e-3"].
Proof. reflexivity. Qed.

Example float_tenth :
  py_float "0.1" = Ok (S754_finite false 7205759403792794 (-56)).
Proof. vm_compute. reflexivity. Qed.

Example float_forms :
  py_float "-1_000.5e-2" = py_float "-10.005" ∧
  py_float "Infinity" = Ok (S754_infinity false) ∧
  py_float "nan" = Ok S754_nan ∧
  py_float "1e400" = Ok (S754_infinity false) ∧
  py_float "-0" = Ok (S754_zero true).
Proof. by vm_compute. Qed.

Example float_refuses :
  py_float "n/a" = Raise ValueError ∧ py_float "" = Raise ValueError ∧
  py_float "1_" = Raise ValueError ∧ py_float "0x10" = Raise ValueError ∧
  py_float "1e" = Raise ValueError ∧ py_float "." = Raise ValueError.
Proof. by vm_compute. Qed.

(** Ties go to the even digit, and they are ties of the binary value:
    0.0078125 is 1/128 exactly, 2.675 lies just below the decimal. *)
Example round_ties :
  py_round6 <$> py_float "0.0078125" = py_float "0.007812" ∧
  py_round6 <$> py_float "0.0234375" = py_float "0.023438" ∧
  py_round6 <$> py_float "0.0000005" = py_float "0" ∧
  py_round6 <$> py_float "-0.0000001" = py_float "-0" ∧
  py_round6 <$> py_float "1e300" = py_float "1e300".
Proof. by vm_compute. Qed.

(** The scenario of three lines: threshold 2, required word "king". *)
Example end_to_end :
  ∃ o, generate_subset_with 2 {["king"]} Sample.three = Ok o ∧
       dom (table o) = {["alpha"; "beta"; "king"]} ∧
       map_Forall (fun _ vec => length vec = 50%nat) (table o) ∧
       printed o = [Reading; Total 3; AllFound; Writing; Wrote].
Proof.
  eexists. split; [vm_compute; reflexivity|].
  split_and!; [by vm_compute| |done].
  apply (bool_decide_unpack _). vm_compute. exact I.
Qed.

End Checks.

(** ** Strings *)

Section StringFacts.

Lemma flush_blank_go (cur s : string) :
  Str.blank s = true → Str.split_go cur s = Str.flush cur.
Proof.
  revert cur. induction s as [|c s IH]; intros cur Hb; simpl in *; [done|].
  apply andb_true_iff in Hb as [Hc Hs]. rewrite Hc, (IH ""), app_nil_r; done.
Qed.

Lemma lstrip_blank (s : string) : Str.blank s = true → Str.lstrip s = "".
Proof.
  induction s as [|c s IH]; simpl; [done|].
  intros [Hc Hs]%andb_true_iff. rewrite Hc. auto.
Qed.

Lemma parts_of_blank (line : string) :
  Str.blank line = true → parts_of line = [].
Proof.
  intros Hb. unfold parts_of, Str.strip. by rewrite lstrip_blank.
Qed.

End StringFacts.

(** ** Floats *)

Section FloatFacts.

Lemma py_float_raises (token : string) (e : exn) :
  py_float token = Raise e → e = ValueError.
Proof.
  unfold py_float. case_match; congruence.
Qed.

End FloatFacts.

(** ** The loop *)

Section LoopFacts.
Variable vocab_size : Z.
Variable required_words : gset string.

#[local] Abbreviation keep := (keep vocab_size required_words).
#[local] Abbreviation body := (body vocab_size required_words).
#[local] Abbreviation loop := (loop vocab_size required_words).

Lemma keep_iff (count : Z) (word : string) :
  keep count word = true ↔ count < vocab_size ∨ word ∈ required_words.
Proof.
  unfold Glove.keep. rewrite orb_true_iff, Z.ltb_lt, bool_decide_eq_true. done.
Qed.

(** *** [vector] *)

Lemma vector_cons (token : string) (tokens : list string) :
  vector (token :: tokens) =
    x ← py_float token; vec ← vector tokens; mret (py_round6 x :: vec).
Proof.
  unfold vector. simpl. by destruct (py_float token).
Qed.

Lemma vector_rounds (tokens : list string) (vec : list float) :
  vector tokens = Ok vec →
  ∃ xs, mapM py_float tokens = Ok xs ∧ vec = py_round6 <$> xs.
Proof.
  revert vec. induction tokens as [|t ts IH]; intros vec.
  - intros [= <-]. by exists [].
  - rewrite vector_cons. simpl.
    destruct (py_float t) as [x|] eqn:Ex; simpl; [|done].
    destruct (vector ts) as [v|] eqn:Ev; simpl; [|done].
    intros [= <-]. destruct (IH v eq_refl) as (xs & Hxs & ->).
    exists (x :: xs). by rewrite Hxs.
Qed.

Lemma vector_length (tokens : list string) (vec : list float) :
  vector tokens = Ok vec → length vec = length tokens.
Proof.
  revert vec. induction tokens as [|t ts IH]; intros vec.
  - by intros [= <-].
  - rewrite vector_cons.
    destruct (py_float t) as [x|]; simpl; [|done].
    destruct (vector ts) as [v|]; simpl; [|done].
    intros [= <-]. simpl. by rewrite (IH v).
Qed.

Lemma vector_numeric (tokens : list string) :
  Forall numeric tokens ↔ returns (vector tokens).
Proof.
  induction tokens as [|t ts IH].
  - split; [by exists []|constructor].
  - rewrite Forall_cons, IH, vector_cons. unfold numeric, returns.
    destruct (py_float t) as [x|]; simpl.
    + destruct (vector ts) as [v|]; simpl.
      * split; eauto.
      * split; [intros (_ & v & [=])|intros (v & [=])].
    + split; [intros ((x & [=]) & _)|intros (v & [=])].
Qed.

Lemma vector_raises (tokens : list string) :
  ¬ Forall numeric tokens → vector tokens = Raise ValueError.
Proof.
  induction tokens as [|t ts IH]; intros Hn.
  - by destruct Hn.
  - rewrite vector_cons.
    destruct (py_float t) as [x|e] eqn:Ex; simpl.
    + rewrite IH; [done|]. intros Hts. apply Hn. constructor; [|done].
      by exists x.
    + by rewrite (py_float_raises _ _ Ex).
Qed.

(** *** One turn *)

Lemma body_eq (st : loop_state) (line : string) :
  body st line =
    match parts_of line with
    | [] => Raise IndexError
    | word :: tokens =>
        if keep (line_count st) word then
          match vector tokens with
          | Ok vec =>
              Ok (advance st (if bool_decide (length vec = 50%nat)
                              then <[word := vec]> (embeddings st)
                              else embeddings st))
          | Raise e => Raise e
          end
        else Ok (advance st (embeddings st))
    end.
Proof.
  unfold Glove.body. destruct (parts_of line) as [|word tokens]; simpl; [done|].
  destruct (keep _ _); simpl; [|done]. by destruct (vector tokens).
Qed.

Lemma body_count (st st' : loop_state) (line : string) :
  body st line = Ok st' → line_count st' = line_count st + 1.
Proof.
  rewrite body_eq. repeat case_match; try done; by intros [= <-].
Qed.

(** *** The whole loop *)

Lemma loop_app (st : loop_state) (lines1 lines2 : list string) :
  loop st (lines1 ++ lines2) = st' ← loop st lines1; loop st' lines2.
Proof.
  revert st. induction lines1 as [|l ls IH]; intros st; simpl; [done|].
  destruct (body st l); simpl; [apply IH|done].
Qed.

Lemma loop_count (st st' : loop_state) (lines : list string) :
  loop st lines = Ok st' →
  line_count st' = line_count st + Z.of_nat (length lines).
Proof.
  revert st. induction lines as [|l ls IH]; intros st; simpl.
  - intros [= <-]. lia.
  - destruct (body st l) as [st1|] eqn:E; simpl; [|done].
    intros H. rewrite (IH _ H), (body_count _ _ _ E). lia.
Qed.

End LoopFacts.

(** ** What the loop puts in the table *)

Section TableFacts.
Variable vocab_size : Z.
Variable required_words : gset string.

#[local] Abbreviation keep := (keep vocab_size required_words).
#[local] Abbreviation body := (body vocab_size required_words).
#[local] Abbreviation loop := (loop vocab_size required_words).
#[local] Abbreviation selects := (selects vocab_size required_words).

Lemma parts_of_cons (line word : string) (tokens : list string) :
  parts_of line = word :: tokens ↔
  word_of line = Some word ∧ tail (parts_of line) = tokens.
Proof.
  unfold word_of. destruct (parts_of line); simpl; naive_solver.
Qed.

(** The entries after a turn: those before it and, when the line is
    selected, the rounded vector of the line under its word. *)
Lemma body_lookup (st st' : loop_state) (line word : string) :
  body st line = Ok st' →
  embeddings st' !! word =
    match vector (tail (parts_of line)) with
    | Ok vec =>
        if bool_decide (selects (line_count st) line word)
        then Some vec else embeddings st !! word
    | Raise _ => embeddings st !! word
    end.
Proof.
  rewrite body_eq. unfold Glove.selects, word_of, dimension.
  destruct (parts_of line) as [|w tokens]; simpl; [done|].
  destruct (keep (line_count st) w) eqn:Hk.
  - destruct (vector tokens) as [vec|] eqn:Hv; [|done].
    intros [= <-]. simpl. rewrite <- (vector_length _ _ Hv).
    destruct (decide (length vec = 50%nat)) as [Hl|Hl].
    + rewrite (bool_decide_eq_true_2 _ Hl).
      destruct (decide (w = word)) as [->|Hw].
      * rewrite lookup_insert_eq, bool_decide_eq_true_2; done.
      * rewrite lookup_insert_ne, bool_decide_eq_false_2; naive_solver.
    + rewrite (bool_decide_eq_false_2 _ Hl), bool_decide_eq_false_2; naive_solver.
  - intros [= <-]. simpl. destruct (vector tokens); [|done].
    rewrite bool_decide_eq_false_2; [done|]. intros ([= ->] & Hk' & _). congruence.
Qed.

Lemma body_dom (st st' : loop_state) (line word : string) :
  body st line = Ok st' →
  word ∈ dom (embeddings st') ↔
  word ∈ dom (embeddings st) ∨ selects (line_count st) line word.
Proof.
  intros Hb. rewrite !elem_of_dom, (body_lookup _ _ _ _ Hb).
  assert (selects (line_count st) line word →
          returns (vector (tail (parts_of line)))) as Hret.
  { intros (Hw & Hk & _). revert Hb. rewrite body_eq.
    unfold word_of in Hw. destruct (parts_of line) as [|w tokens]; [done|].
    simpl in *. injection Hw as ->. rewrite Hk.
    destruct (vector tokens); [by eexists|done]. }
  destruct (vector _) as [vec|e].
  - case_bool_decide; naive_solver.
  - split; [auto|]. intros [?|Hs]; [done|]. by destruct (Hret Hs).
Qed.

Lemma loop_dom (st st' : loop_state) (lines : list string) (word : string) :
  loop st lines = Ok st' →
  word ∈ dom (embeddings st') ↔
  word ∈ dom (embeddings st) ∨
  ∃ (i : nat) line, lines !! i = Some line ∧
                    selects (line_count st + Z.of_nat i) line word.
Proof.
  revert st. induction lines as [|l ls IH]; intros st; simpl.
  - intros [= <-]. split; [auto|]. by intros [?|(i & line & ? & _)].
  - destruct (body st l) as [st1|] eqn:Hb; simpl; [|done].
    intros Hl. rewrite (IH _ Hl), (body_dom _ _ _ _ Hb), (body_count _ _ _ _ _ Hb).
    split.
    + intros [[?|Hs]|(i & line & Hi & Hs)]; [by left| |].
      * right. exists 0%nat, l. by rewrite Z.add_0_r.
      * right. exists (S i), line. split; [done|].
        by replace (line_count st + Z.of_nat (S i))
          with (line_count st + 1 + Z.of_nat i) by lia.
    + intros [?|([|i] & line & Hi & Hs)]; [by left; left| |].
      * injection Hi as ->. left; right. by rewrite Z.add_0_r in Hs.
      * right. exists i, line. split; [done|].
        by replace (line_count st + 1 + Z.of_nat i)
          with (line_count st + Z.of_nat (S i)) by lia.
Qed.

Lemma loop_lookup (st st' : loop_state) (lines : list string)
    (word : string) (vec : list float) :
  loop st lines = Ok st' →
  embeddings st' !! word = Some vec →
  embeddings st !! word = Some vec ∨
  ∃ (i : nat) line, lines !! i = Some line ∧
                    selects (line_count st + Z.of_nat i) line word ∧
                    vector (tail (parts_of line)) = Ok vec.
Proof.
  revert st. induction lines as [|l ls IH]; intros st; simpl.
  - intros [= <-]. by left.
  - destruct (body st l) as [st1|] eqn:Hb; simpl; [|done].
    intros Hl Hw. destruct (IH _ Hl Hw) as [H1|(i & line & Hi & Hs & Hv)].
    + rewrite (body_lookup _ _ _ _ Hb) in H1.
      destruct (vector (tail (parts_of l))) as [v|] eqn:Hv; [|by left].
      case_bool_decide as Hs; [|by left]. injection H1 as ->.
      right. exists 0%nat, l. by rewrite Z.add_0_r.
    + right. exists (S i), line. rewrite (body_count _ _ _ _ _ Hb) in Hs.
      split_and!; [done| |done].
      by replace (line_count st + Z.of_nat (S i))
        with (line_count st + 1 + Z.of_nat i) by lia.
Qed.

(** Every vector of the table has 50 components. *)
Lemma loop_fifty (st st' : loop_state) (lines : list string) :
  loop st lines = Ok st' →
  map_Forall (fun _ vec => length vec = 50%nat) (embeddings st) →
  map_Forall (fun _ vec => length vec = 50%nat) (embeddings st').
Proof.
  intros Hl Hst word vec Hw.
  destruct (loop_lookup _ _ _ _ _ Hl Hw) as [H0|(i & line & _ & Hs & Hv)].
  - by apply (Hst word).
  - destruct Hs as (_ & _ & Hd). by rewrite (vector_length _ _ Hv).
Qed.

(** *** The function *)

Lemma generate_subset_with_eq (lines : list string) :
  generate_subset_with vocab_size required_words lines =
    match loop start lines with
    | Ok st =>
        Ok {| table := embeddings st;
              printed := stdout st ++
                [Total (Z.of_nat (size (embeddings st)));
                 if bool_decide (required_words ∖ dom (embeddings st) = ∅)
                 then AllFound
                 else MissingWords (required_words ∖ dom (embeddings st));
                 Writing; Wrote];
              output_file := dump (embeddings st) |}
    | Raise e => Raise e
    end.
Proof.
  unfold generate_subset_with. by destruct (loop start lines).
Qed.

Lemma generate_subset_with_Ok (lines : list string) (o : outcome) :
  generate_subset_with vocab_size required_words lines = Ok o →
  ∃ st, loop start lines = Ok st ∧ table o = embeddings st ∧
        output_file o = dump (table o).
Proof.
  rewrite generate_subset_with_eq. destruct (loop start lines) as [st|]; [|done].
  intros [= <-]. by exists st.
Qed.

End TableFacts.

(** ** JSON *)

Section JsonFacts.

Lemma as_vector_numbers (vec : list float) :
  as_vector (JArray (JNumber <$> vec)) = Some vec.
Proof.
  unfold as_vector. induction vec as [|x xs IH]; [done|].
  rewrite fmap_cons. cbn [mapM]. by rewrite IH.
Qed.

Lemma entries_dump (l : list (string * list float)) :
  mapM as_entry (prod_map id (fun v => JArray (JNumber <$> v)) <$> l) = Some l.
Proof.
  induction l as [|[k v] l IH]; [done|].
  rewrite fmap_cons. cbn [mapM]. rewrite IH.
  unfold as_entry. cbn [prod_map fst snd id]. rewrite as_vector_numbers. done.
Qed.

Lemma foldl_insert (l : list (string * list float))
    (m : gmap string (list float)) :
  foldl (fun m kv => <[kv.1 := kv.2]> m) m l = list_to_map (reverse l) ∪ m.
Proof.
  revert m. induction l as [|[k v] l IH]; intros m; simpl.
  - by rewrite (left_id_L ∅ (∪)).
  - rewrite IH, reverse_cons, list_to_map_app. simpl.
    rewrite <- (assoc_L (∪)), insert_empty, <- insert_union_singleton_l. done.
Qed.

Lemma load_dump (d : gmap string (list float)) : load (dump d) = Some d.
Proof.
  unfold load, dump. rewrite entries_dump. simpl. f_equal.
  rewrite foldl_insert, (right_id_L ∅ (∪)).
  rewrite <- (list_to_map_to_list d) at 2.
  apply list_to_map_proper; [|apply reverse_Permutation].
  rewrite fmap_reverse, reverse_Permutation. apply NoDup_fst_map_to_list.
Qed.

Lemma names_dump (d : gmap string (list float)) (word : string) :
  word ∈ names (dump d) ↔ word ∈ dom d.
Proof.
  unfold names, dump. rewrite <- list_fmap_compose.
  rewrite elem_of_dom, list_elem_of_fmap. split.
  - intros ([k v] & -> & Hkv). apply elem_of_map_to_list in Hkv. by exists v.
  - intros [v Hv]. exists (word, v). split; [done|]. by apply elem_of_map_to_list.
Qed.

Lemma names_dump_NoDup (d : gmap string (list float)) : NoDup (names (dump d)).
Proof.
  unfold names, dump. rewrite <- list_fmap_compose.
  apply (NoDup_fst_map_to_list d).
Qed.

End JsonFacts.

(** ** The keys of the table *)

Section KeyFacts.
Variable vocab_size : Z.
Variable required_words : gset string.

#[local] Abbreviation loop := (loop vocab_size required_words).
#[local] Abbreviation selects := (selects vocab_size required_words).
#[local] Abbreviation generate_subset_with :=
  (generate_subset_with vocab_size required_words).

Lemma generate_subset_with_dom (lines : list string) (o : outcome)
    (word : string) :
  generate_subset_with lines = Ok o →
  word ∈ dom (table o) ↔
  ∃ (i : nat) line, lines !! i = Some line ∧ selects (Z.of_nat i) line word.
Proof.
  intros (st & Hl & -> & _)%generate_subset_with_Ok.
  rewrite (loop_dom _ _ _ _ _ _ Hl). simpl. rewrite dom_empty_L. set_solver.
Qed.

(** A run that returns has found a word on every line. *)
Lemma loop_words (st st' : loop_state) (lines : list string) :
  loop st lines = Ok st' → Forall (fun line => is_Some (word_of line)) lines.
Proof.
  revert st. induction lines as [|l ls IH]; intros st; simpl; [constructor|].
  destruct (body _ _ st l) as [st1|] eqn:Hb; simpl; [|done].
  intros Hl. constructor; [|by eapply IH].
  revert Hb. rewrite body_eq. unfold word_of.
  destruct (parts_of l); [done|]. by eexists.
Qed.

Lemma elem_of_words (lines : list string) (word : string) :
  word ∈ omap word_of lines ↔
  ∃ (i : nat) line, lines !! i = Some line ∧ word_of line = Some word.
Proof.
  rewrite list_elem_of_omap. split.
  - intros (line & (i & Hi)%list_elem_of_lookup & Hw). eauto.
  - intros (i & line & Hi & Hw). exists line. split; [|done].
    apply list_elem_of_lookup. eauto.
Qed.

Lemma elem_of_first_and_required (lines : list string) (word : string) :
  word ∈ first_and_required vocab_size required_words lines ↔
  ∃ (i : nat) line, lines !! i = Some line ∧ word_of line = Some word ∧
                    (Z.of_nat i < vocab_size ∨ word ∈ required_words).
Proof.
  unfold first_and_required.
  rewrite elem_of_union, elem_of_intersection, !elem_of_list_to_set,
    !elem_of_words.
  split.
  - intros [(i & line & Hi & Hw)|(Hr & i & line & Hi & Hw)].
    + apply lookup_take_Some in Hi as [Hi Hlt].
      exists i, line. split_and!; [done..|]. left. lia.
    + exists i, line. auto.
  - intros (i & line & Hi & Hw & [Hlt|Hr]).
    + left. exists i, line. split; [|done].
      apply lookup_take_Some. split; [done|lia].
    + right. eauto.
Qed.

End KeyFacts.

(** * The claims *)

(** ** C1: the keys of the table *)

(** C1, as stated, fails: with a threshold of 1 and the required word
    "king", a file of two lines whose second line gives "king" only 49
    components yields a table without "king", although "king" is a
    required word that the file has. *)
Lemma keys_counterexample :
  ∃ o, generate_subset_with 1 {["king"]} Sample.short = Ok o ∧
       1 < Z.of_nat (length Sample.short) ∧
       "king" ∈ first_and_required 1 {["king"]} Sample.short ∧
       "king" ∉ dom (table o).
Proof.
  eexists. split; [vm_compute; reflexivity|]. split; [done|]. split.
  - apply elem_of_first_and_required. exists 1%nat, (Sample.row "king" "0.5" 49).
    split_and!; [done|by vm_compute|right; set_solver].
  - apply not_elem_of_dom. by vm_compute.
Qed.

(** C1, amended: when the run returns, the keys of the table are exactly the
    words of the lines that carry 50 tokens after the word and that are kept,
    a line being kept if and only if the number of lines read before it is
    below the threshold or its word is required; no key is written twice; and
    on a file whose lines all carry 50 tokens the keys are exactly the words
    of the first K lines together with the required words the file has. *)
Theorem keys_are_selected_words
    (k : Z) (required : gset string) (lines : list string) (o : outcome) :
  generate_subset_with k required lines = Ok o →
  (∀ word, word ∈ dom (table o) ↔
           ∃ (i : nat) line, lines !! i = Some line ∧
                             selects k required (Z.of_nat i) line word) ∧
  (∀ count word, keep k required count word = true ↔
                 count < k ∨ word ∈ required) ∧
  NoDup (names (output_file o)) ∧
  (Forall (fun line => dimension line = 50%nat) lines →
   dom (table o) = first_and_required k required lines).
Proof.
  intros Ho. split_and!.
  - intros word. by apply generate_subset_with_dom.
  - apply keep_iff.
  - apply generate_subset_with_Ok in Ho as (st & _ & _ & ->).
    apply names_dump_NoDup.
  - intros Hdim. apply set_eq. intros word.
    rewrite (generate_subset_with_dom _ _ _ _ _ Ho), elem_of_first_and_required.
    unfold selects. setoid_rewrite keep_iff.
    split.
    + intros (i & line & Hi & Hw & Hk & _). eauto.
    + intros (i & line & Hi & Hw & Hk). exists i, line. split_and!; try done.
      eapply Forall_lookup_1 in Hdim; eauto.
Qed.

(** On the file of three lines, which all carry 50 components. *)
Lemma keys_are_selected_words_witness :
  ∃ o, generate_subset_with 2 {["king"]} Sample.three = Ok o ∧
       dom (table o) = first_and_required 2 {["king"]} Sample.three.
Proof.
  eexists. split; [vm_compute; reflexivity|].
  apply (keys_are_selected_words 2 {["king"]} Sample.three);
    [vm_compute; reflexivity|].
  repeat constructor.
Defined.

(** ** C2: the size of the table *)

Lemma omap_length_all {A B} (f : A → option B) (l : list A) :
  Forall (fun x => is_Some (f x)) l → length (omap f l) = length l.
Proof.
  induction 1 as [|x l [y Hy] _ IH]; simpl; [done|].
  rewrite Hy. simpl. f_equal. exact IH.
Qed.

(** C2, as stated, fails in two ways: a file of two lines that gives the same
    word twice and a file of two lines whose second line is one component
    short each yield, for a threshold of 2, a table with a single entry. *)
Lemma size_counterexample :
  (∃ o, generate_subset_with 2 {["king"]} Sample.twice = Ok o ∧
        2 ≤ Z.of_nat (length Sample.twice) ∧ Z.of_nat (size (table o)) < 2) ∧
  (∃ o, generate_subset_with 2 {["king"]} Sample.short = Ok o ∧
        2 ≤ Z.of_nat (length Sample.short) ∧ Z.of_nat (size (table o)) < 2).
Proof.
  split; (eexists; split; [vm_compute; reflexivity|]); by vm_compute.
Qed.

(** C2, amended: when the run returns on a file of at least K lines whose
    first K lines carry 50 tokens after the word and pairwise distinct
    words, the table has at least K entries. *)
Theorem size_at_least_threshold
    (k : Z) (required : gset string) (lines : list string) (o : outcome) :
  generate_subset_with k required lines = Ok o →
  k ≤ Z.of_nat (length lines) →
  Forall (fun line => dimension line = 50%nat) (take (Z.to_nat k) lines) →
  NoDup (omap word_of (take (Z.to_nat k) lines)) →
  k ≤ Z.of_nat (size (table o)).
Proof.
  intros Ho Hlen Hdim Hnd.
  set (n := Z.to_nat k) in *. set (ws := omap word_of (take n lines)) in *.
  assert (length ws = n) as Hws.
  { unfold ws. rewrite omap_length_all.
    - rewrite length_take. lia.
    - destruct (generate_subset_with_Ok _ _ _ _ Ho) as (st & Hl & _).
      apply Forall_take. by eapply loop_words. }
  assert (list_to_set ws ⊆ dom (table o)) as Hsub.
  { intros word [i [line [Hi Hw]]]%elem_of_list_to_set%elem_of_words.
    apply (generate_subset_with_dom _ _ _ _ _ Ho).
    pose proof (Forall_lookup_1 _ _ _ _ Hdim Hi) as Hd.
    apply lookup_take_Some in Hi as [Hi Hlt].
    exists i, line. split; [done|]. split_and!; [done| |done].
    apply keep_iff. left. lia. }
  apply subseteq_size in Hsub.
  rewrite size_list_to_set, Hws, size_dom in Hsub; [lia|done].
Qed.

(** On the file of three lines, for a threshold of 2. *)
Lemma size_at_least_threshold_witness :
  ∃ o, generate_subset_with 2 {["king"]} Sample.three = Ok o ∧
       2 ≤ Z.of_nat (size (table o)).
Proof.
  eexists. split; [vm_compute; reflexivity|].
  apply (size_at_least_threshold 2 {["king"]} Sample.three).
  - vm_compute. reflexivity.
  - vm_compute. discriminate.
  - repeat constructor.
  - vm_compute. repeat constructor; set_solver.
Defined.

(** ** C3: the dimensionality guard *)

(** C3: a kept line whose tokens after the word are numbers, but not 50 of
    them, leaves the table as it was, raises nothing, and the loop goes on
    with the lines that follow. *)
Theorem dimension_guard
    (k : Z) (required : gset string) (st : loop_state)
    (line word : string) (tokens rest : list string) :
  parts_of line = word :: tokens →
  keep k required (line_count st) word = true →
  Forall numeric tokens →
  length tokens ≠ 50%nat →
  ∃ st', body k required st line = Ok st' ∧
         embeddings st' = embeddings st ∧
         loop k required st (line :: rest) = loop k required st' rest.
Proof.
  intros Hp Hk Hnum Hlen.
  apply vector_numeric in Hnum as [vec Hvec].
  exists (advance st (embeddings st)).
  assert (body k required st line = Ok (advance st (embeddings st))) as Hb.
  { rewrite body_eq, Hp, Hk, Hvec, bool_decide_eq_false_2; [done|].
    by rewrite (vector_length _ _ Hvec). }
  split_and!; [done..|]. simpl. by rewrite Hb.
Qed.

(** On a line for "king" with 49 components, read first. *)
Lemma dimension_guard_witness :
  ∃ st', body 1 {["king"]} start (Sample.row "king" "0.5" 49) = Ok st' ∧
         embeddings st' = embeddings start ∧
         loop 1 {["king"]} start [Sample.row "king" "0.5" 49; Sample.row "the" "0.5" 50]
         = loop 1 {["king"]} st' [Sample.row "the" "0.5" 50].
Proof.
  apply (dimension_guard 1 {["king"]} start (Sample.row "king" "0.5" 49)
           "king" (replicate 49 "0.5")).
  - vm_compute. reflexivity.
  - vm_compute. reflexivity.
  - apply Forall_replicate. eexists. vm_compute. reflexivity.
  - vm_compute. discriminate.
Defined.

(** ** C8: lines that are not kept, and tokens that are no numbers *)

(** C8, as stated, fails: a line without any token is malformed and, read
    at a position that is not below the threshold, is not kept, yet it is
    not passed over.  With a threshold of 1 and the required word "king",
    the empty second line of a file of three lines ends the run with
    [IndexError], and no table is built. *)
Lemma unkept_blank_counterexample :
  Sample.gap !! 1%nat = Some (String "010" "") ∧
  ¬ (1 < 1) ∧
  word_of (String "010" "") = None ∧
  dimension (String "010" "") ≠ 50%nat ∧
  generate_subset_with 1 {["king"]} Sample.gap = Raise IndexError.
Proof.
  split_and!; [reflexivity|lia|reflexivity|by vm_compute|].
  vm_compute. reflexivity.
Qed.

(** C8, amended: a line that has a word and is not kept is passed over
    without a look at its other tokens, whatever they are and however many,
    and the table stays as it was; on a kept line a token that [float]
    refuses raises [ValueError], which ends the loop and the run; and a line
    without any token raises [IndexError] before the test that keeps a
    line, which ends the run as well. *)
Theorem unkept_skipped_kept_fatal
    (k : Z) (required : gset string) (st : loop_state) (line : string) :
  (∀ word tokens,
     parts_of line = word :: tokens →
     (keep k required (line_count st) word = false →
      ∃ st', body k required st line = Ok st' ∧
             embeddings st' = embeddings st) ∧
     (keep k required (line_count st) word = true →
      ¬ Forall numeric tokens →
      body k required st line = Raise ValueError ∧
      (∀ rest, loop k required st (line :: rest) = Raise ValueError) ∧
      (∀ before after, loop k required start before = Ok st →
         generate_subset_with k required (before ++ line :: after)
         = Raise ValueError))) ∧
  (parts_of line = [] →
   body k required st line = Raise IndexError ∧
   (∀ before after, loop k required start before = Ok st →
      generate_subset_with k required (before ++ line :: after)
      = Raise IndexError)).
Proof.
  split.
  - intros word tokens Hp. split.
    + intros Hk. exists (advance st (embeddings st)).
      by rewrite body_eq, Hp, Hk.
    + intros Hk Hnum.
      assert (body k required st line = Raise ValueError) as Hb.
      { by rewrite body_eq, Hp, Hk, (vector_raises _ Hnum). }
      split_and!; [done| |].
      * intros rest. simpl. by rewrite Hb.
      * intros before after Hl.
        rewrite generate_subset_with_eq, loop_app, Hl. simpl. by rewrite Hb.
  - intros Hp.
    assert (body k required st line = Raise IndexError) as Hb.
    { by rewrite body_eq, Hp. }
    split; [done|]. intros before after Hl.
    rewrite generate_subset_with_eq, loop_app, Hl. simpl. by rewrite Hb.
Qed.

(** On a line for "king" whose components are no numbers: passed over
    when "king" is not required, fatal when it is. *)
Lemma unkept_skipped_kept_fatal_witness :
  (∃ st', body 0 {["queen"]} start (Sample.row "king" "n/a" 50) = Ok st' ∧
          embeddings st' = embeddings start) ∧
  body 0 {["king"]} start (Sample.row "king" "n/a" 50) = Raise ValueError.
Proof.
  split.
  - destruct (unkept_skipped_kept_fatal 0 {["queen"]} start
                (Sample.row "king" "n/a" 50)) as [H _].
    apply (H "king" (replicate 50 "n/a")).
    + vm_compute. reflexivity.
    + vm_compute. reflexivity.
  - destruct (unkept_skipped_kept_fatal 0 {["king"]} start
                (Sample.row "king" "n/a" 50)) as [H _].
    apply (H "king" (replicate 50 "n/a")).
    + vm_compute. reflexivity.
    + vm_compute. reflexivity.
    + intros Hn. apply Forall_inv in Hn as [x Hx]. vm_compute in Hx. discriminate.
Defined.

(** ** C10: blank lines *)

(** C10: a line that is empty or made of whitespace only has no tokens, so
    [parts[0]] raises [IndexError], in whatever state the line is read,
    kept or not; the loop and the run end with that error. *)
Theorem blank_line_fatal
    (k : Z) (required : gset string) (st : loop_state) (line : string) :
  Str.blank line = true →
  parts_of line = [] ∧
  body k required st line = Raise IndexError ∧
  (∀ rest, loop k required st (line :: rest) = Raise IndexError) ∧
  (∀ before after, loop k required start before = Ok st →
     generate_subset_with k required (before ++ line :: after)
     = Raise IndexError).
Proof.
  intros Hp%parts_of_blank.
  assert (body k required st line = Raise IndexError) as Hb.
  { by rewrite body_eq, Hp. }
  split_and!; [done..| |].
  - intros rest. simpl. by rewrite Hb.
  - intros before after Hl.
    rewrite generate_subset_with_eq, loop_app, Hl. simpl. by rewrite Hb.
Qed.

(** On the file whose second line is empty. *)
Lemma blank_line_fatal_witness :
  generate_subset_with 0 {["king"]} Sample.gap = Raise IndexError.
Proof.
  pose proof (blank_line_fatal 0 {["king"]}
                (advance start ∅) (String "010" "") eq_refl) as (_ & _ & _ & H).
  apply (H [Sample.row "the" "0.5" 50] [Sample.row "king" "0.5" 50]).
  vm_compute. reflexivity.
Defined.

(** ** C4: required words that were not found *)

Section OutputFacts.
Variable vocab_size : Z.
Variable required_words : gset string.

(** The loop prints progress lines and nothing else. *)
Lemma loop_stdout (st st' : loop_state) (lines : list string) :
  loop vocab_size required_words st lines = Ok st' →
  ∃ more, stdout st' = stdout st ++ more ∧ Forall is_progress more.
Proof.
  revert st. induction lines as [|l ls IH]; intros st; simpl.
  - intros [= <-]. exists []. by rewrite app_nil_r.
  - destruct (body _ _ st l) as [st1|] eqn:Hb; simpl; [|done].
    intros (more & -> & Hmore)%IH.
    assert (∃ emb, st1 = advance st emb) as [emb ->].
    { revert Hb. rewrite body_eq. repeat case_match; try done;
        intros [= <-]; eauto. }
    simpl. eexists. rewrite <- app_assoc. split; [done|].
    apply Forall_app. split; [|done]. case_match; by repeat constructor.
Qed.

End OutputFacts.

(** C4: when the loop has ended and some required word is not a key of the
    table, the run still returns; it prints the warning with exactly the
    required words that are not keys, and no other such line; and it writes
    the table to the output file, where the missing words have no member. *)
Theorem missing_words_reported
    (k : Z) (required : gset string) (lines : list string) (st : loop_state) :
  loop k required start lines = Ok st →
  required ∖ dom (embeddings st) ≠ ∅ →
  ∃ o, generate_subset_with k required lines = Ok o ∧
       (∀ missing, MissingWords missing ∈ printed o ↔
                   missing = required ∖ dom (embeddings st)) ∧
       (AllFound ∉ printed o) ∧
       output_file o = dump (embeddings st) ∧
       load (output_file o) = Some (embeddings st) ∧
       (∀ word, word ∈ names (output_file o) ↔ word ∈ dom (embeddings st)) ∧
       (∀ word, word ∈ required ∖ dom (embeddings st) →
                word ∉ names (output_file o)).
Proof.
  intros Hl Hmiss. eexists. rewrite generate_subset_with_eq, Hl.
  split; [reflexivity|]. simpl.
  rewrite (bool_decide_eq_false_2 _ Hmiss).
  destruct (loop_stdout _ _ _ _ _ Hl) as (more & -> & Hmore). simpl.
  assert (∀ e, is_progress e = false → e ∉ more) as Hnot.
  { intros e He Hin. eapply Forall_forall in Hmore; [|done].
    rewrite He in Hmore. done. }
  split_and!.
  - intros missing. rewrite !elem_of_cons, elem_of_app, !elem_of_cons.
    split; [|intros ->; auto].
    intros [[=]|[?|[[=]|[[= ->]|[[=]|[[=]|H]]]]]]; try done.
    + by destruct (Hnot (MissingWords missing)).
    + by apply elem_of_nil in H.
  - rewrite !elem_of_cons, elem_of_app, !elem_of_cons.
    intros [[=]|[?|[[=]|[[=]|[[=]|[[=]|H]]]]]]; try done.
    + by destruct (Hnot AllFound).
    + by apply elem_of_nil in H.
  - done.
  - apply load_dump.
  - intros word. apply names_dump.
  - intros word [_ Hw]%elem_of_difference Hin%names_dump. done.
Qed.

(** On the file of three lines, with "queen" required and absent. *)
Lemma missing_words_reported_witness :
  ∃ o, generate_subset_with 1 {["king"; "queen"]} Sample.three = Ok o ∧
       MissingWords {["queen"]} ∈ printed o ∧
       "queen" ∉ names (output_file o).
Proof.
  destruct (missing_words_reported 1 {["king"; "queen"]} Sample.three
              (advance (advance (advance start
                 {["alpha" := replicate 50 (S754_finite false 7205759403792794 (-56))]})
                 {["alpha" := replicate 50 (S754_finite false 7205759403792794 (-56))]})
                 {["alpha" := replicate 50 (S754_finite false 7205759403792794 (-56));
                   "king" := replicate 50 (S754_finite false 8896014387140469 (-56))]}))
    as (o & Ho & Hm & _ & _ & _ & _ & Hn).
  - vm_compute. reflexivity.
  - intros H. assert ("queen" ∈ (∅ : gset string)) as []%elem_of_empty.
    rewrite <- H. apply (bool_decide_unpack _). vm_compute. exact I.
  - exists o. split; [exact Ho|]. split.
    + apply Hm. apply (bool_decide_unpack _). vm_compute. exact I.
    + apply Hn. apply (bool_decide_unpack _). vm_compute. exact I.
Defined.

(** ** C5: reading the output file back *)

(** C5: the document written to the output file reads back as the table
    that was built; its keys are the words kept in the table, which are the
    words of the lines that were kept and passed the guard, and each of its
    values has 50 numbers. *)
Theorem json_round_trip
    (k : Z) (required : gset string) (lines : list string) (o : outcome) :
  generate_subset_with k required lines = Ok o →
  ∃ d, load (output_file o) = Some d ∧
       d = table o ∧
       (∀ word, word ∈ dom d ↔
                ∃ (i : nat) line, lines !! i = Some line ∧
                                  selects k required (Z.of_nat i) line word) ∧
       map_Forall (fun _ vec => length vec = 50%nat) d.
Proof.
  intros Ho. exists (table o).
  destruct (generate_subset_with_Ok _ _ _ _ Ho) as (st & Hl & Ht & ->).
  split_and!.
  - apply load_dump.
  - done.
  - intros word. by apply generate_subset_with_dom.
  - rewrite Ht. by apply (loop_fifty _ _ _ _ _ Hl).
Qed.

(** On the file of three lines. *)
Lemma json_round_trip_witness :
  ∃ o d, generate_subset_with 2 {["king"]} Sample.three = Ok o ∧
         load (output_file o) = Some d ∧
         map_Forall (fun _ vec => length vec = 50%nat) d.
Proof.
  destruct (generate_subset_with 2 {["king"]} Sample.three) as [o|e] eqn:Ho;
    [|vm_compute in Ho; discriminate].
  destruct (json_round_trip 2 {["king"]} Sample.three o Ho)
    as (d & Hd & _ & _ & H50).
  exists o, d. split; [reflexivity|]. split; [exact Hd|exact H50].
Defined.

(** ** C6: rounding *)

Section RoundingFacts.

Lemma nearest_even_near (p : Z) (q : positive) :
  2 * Z.abs (nearest_even p q * Zpos q - p) ≤ Zpos q.
Proof.
  unfold nearest_even.
  pose proof (Z.div_mod p (Zpos q) ltac:(done)) as Hdm.
  pose proof (Z.mod_pos_bound p (Zpos q) ltac:(done)) as Hb.
  destruct (Z.compare_spec (2 * (p mod Zpos q)) (Zpos q)) as [He|Hlt|Hgt].
  - destruct (Z.even _); lia.
  - lia.
  - lia.
Qed.

Lemma py_round6_six_decimals (x : float) : six_decimals x (py_round6 x).
Proof.
  destruct x as [s|s| |s m e]; simpl; try done.
  destruct (Z.leb_spec 0 e) as [He|He].
  - exists (Zpos m * 2 ^ e * 10 ^ 6). split; [done|].
    rewrite (Z.max_l 0 (- e)), (Z.max_r 0 e) by lia.
    rewrite Z.pow_0_r, Z.mul_1_r, Z.sub_diag. simpl. lia.
  - eexists. split; [reflexivity|].
    rewrite (Z.max_r 0 (- e)), (Z.max_l 0 e) by lia.
    rewrite Z.pow_0_r, Z.mul_1_r.
    assert (0 < 2 ^ (- e)) as Hpos by (apply Z.pow_pos_nonneg; lia).
    pose proof (nearest_even_near (Zpos m * 10 ^ 6) (Z.to_pos (2 ^ (- e)))) as H.
    rewrite Z2Pos.id in H by done. exact H.
Qed.

End RoundingFacts.

(** C6: each vector of the table is that of a kept line of the file, each
    token [x] after the word stored as [round(float(x), 6)]; the value stored
    is the float of a decimal with six places at most half a unit of the
    sixth place away from [float(x)]; and the token 0.1234567 is stored as
    the float 0.123457. *)
Theorem components_rounded :
  (∀ (k : Z) (required : gset string) (lines : list string) (o : outcome)
     (word : string) (vec : list float),
      generate_subset_with k required lines = Ok o →
      table o !! word = Some vec →
      ∃ (i : nat) line xs,
        lines !! i = Some line ∧
        selects k required (Z.of_nat i) line word ∧
        mapM py_float (tail (parts_of line)) = Ok xs ∧
        vec = py_round6 <$> xs ∧
        Forall2 six_decimals xs vec) ∧
  py_round6 <$> py_float "0.1234567" = py_float "0.123457" ∧
  py_float "0.1234567" = Ok (S754_finite false 8895992769862258 (-56)) ∧
  py_float "0.123457" = Ok (S754_finite false 8896014387140469 (-56)).
Proof.
  split; [|by vm_compute].
  intros k required lines o word vec Ho Hw.
  destruct (generate_subset_with_Ok _ _ _ _ Ho) as (st & Hl & Ht & _).
  rewrite Ht in Hw.
  destruct (loop_lookup _ _ _ _ _ _ _ Hl Hw) as [H0|(i & line & Hi & Hs & Hv)].
  { simpl in H0. by rewrite lookup_empty in H0. }
  destruct (vector_rounds _ _ Hv) as (xs & Hxs & ->).
  exists i, line, xs. simpl in Hs. rewrite Z.add_0_l in Hs.
  split_and!; try done.
  apply Forall2_fmap_r, Forall_Forall2_diag, Forall_forall.
  intros x _. apply py_round6_six_decimals.
Qed.

(** On the file of three lines: the 50 components 0.1234567 of "king". *)
Lemma components_rounded_witness :
  ∃ o, generate_subset_with 2 {["king"]} Sample.three = Ok o ∧
       ∃ xs, mapM py_float (replicate 50 "0.1234567") = Ok xs ∧
             table o !! "king" = Some (py_round6 <$> xs) ∧
             py_round6 <$> xs = replicate 50 (S754_finite false 8896014387140469 (-56)).
Proof.
  destruct (generate_subset_with 2 {["king"]} Sample.three) as [o|e] eqn:Ho;
    [|vm_compute in Ho; discriminate].
  exists o. split; [reflexivity|].
  destruct components_rounded as [H _].
  destruct (H 2 {["king"]} Sample.three o "king"
              (replicate 50 (S754_finite false 8896014387140469 (-56))) Ho)
    as (i & line & xs & Hi & Hs & Hxs & Hv & _).
  - vm_compute in Ho. injection Ho as <-. vm_compute. reflexivity.
  - exists (replicate 50 (S754_finite false 8895992769862258 (-56))).
    vm_compute in Ho. injection Ho as <-.
    split; [vm_compute; reflexivity|]. split; vm_compute; reflexivity.
Defined.

(** ** C7: the download *)

Section DownloadFacts.

Lemma exists_true (path : string) (fs : gmap string content) :
  exists_ path fs = true ↔ is_Some (fs !! path).
Proof. unfold exists_. apply bool_decide_eq_true. Qed.

Lemma download_glove_present (net : response) (fs : gmap string content) :
  is_Some (fs !! GLOVE_TXT) →
  download_glove net fs = (fs, [Print AlreadyExists], Ok tt).
Proof.
  intros H%exists_true. unfold download_glove. by rewrite H.
Qed.

Lemma urlretrieve_fetches (net : response) (fs : gmap string content) :
  fetches (urlretrieve net fs).1.2 = 1%nat.
Proof. by destruct net. Qed.

Lemma extract_fetches (fs : gmap string content) :
  fetches (extract fs).1.2 = 0%nat.
Proof.
  unfold extract. repeat case_match; done.
Qed.

Lemma extract_Ok (fs fs' : gmap string content) (log : list effect) :
  extract fs = (fs', log, Ok tt) → is_Some (fs' !! GLOVE_TXT).
Proof.
  unfold extract. repeat case_match; try done.
  intros [= <- _]. rewrite lookup_insert_eq. by eexists.
Qed.

Lemma fetches_app (log1 log2 : list effect) :
  fetches (log1 ++ log2) = (fetches log1 + fetches log2)%nat.
Proof. unfold fetches. by rewrite filter_app, length_app. Qed.

(** A call that returns leaves the text file in place. *)
Lemma download_glove_Ok (net : response) (fs fs' : gmap string content)
    (log : list effect) :
  download_glove net fs = (fs', log, Ok tt) → is_Some (fs' !! GLOVE_TXT).
Proof.
  unfold download_glove.
  destruct (exists_ GLOVE_TXT fs) eqn:Htxt.
  { intros [= <- _]. by apply exists_true. }
  destruct (exists_ GLOVE_ZIP fs); simpl.
  - destruct (extract fs) as [[fs2 log2] [[]|e]] eqn:He; [|done].
    intros [= <- _]. by eapply extract_Ok.
  - destruct (urlretrieve net fs) as [[fs1 log1] [[]|e]]; [|done].
    destruct (extract fs1) as [[fs2 log2] [[]|e]] eqn:He; [|done].
    intros [= <- _]. by eapply extract_Ok.
Qed.

Lemma fetches_print (m : message) (log : list effect) :
  fetches (Print m :: log) = fetches log.
Proof. reflexivity. Qed.

Lemma fetches_nil : fetches [] = 0%nat.
Proof. reflexivity. Qed.

#[local] Ltac count_fetches :=
  cbn [fst snd] in *;
  repeat first [rewrite fetches_print | rewrite fetches_app | rewrite fetches_nil];
  lia.

Lemma download_glove_fetches (net : response) (fs : gmap string content) :
  (fetches (download_glove net fs).1.2 ≤ 1)%nat.
Proof.
  unfold download_glove.
  destruct (exists_ GLOVE_TXT fs); [count_fetches|].
  destruct (exists_ GLOVE_ZIP fs); cbn [negb].
  - pose proof (extract_fetches fs) as He.
    destruct (extract fs) as [[fs2 log2] [[]|e]]; count_fetches.
  - pose proof (urlretrieve_fetches net fs) as Hu.
    destruct (urlretrieve net fs) as [[fs1 log1] [[]|e]]; [|count_fetches].
    pose proof (extract_fetches fs1) as He.
    destruct (extract fs1) as [[fs2 log2] [[]|e]]; count_fetches.
Qed.

End DownloadFacts.

(** C7: with the text file in place a call returns at once, without using
    the network and without writing a file; a call that has returned is
    followed by such a call, whatever the server would do; so two calls in a
    row use the network at most once. *)
Theorem download_glove_idempotent :
  (∀ net fs, is_Some (fs !! GLOVE_TXT) →
     download_glove net fs = (fs, [Print AlreadyExists], Ok tt) ∧
     fetches (download_glove net fs).1.2 = 0%nat ∧
     writes (download_glove net fs).1.2 = 0%nat) ∧
  (∀ net1 net2 fs fs1 log1,
     download_glove net1 fs = (fs1, log1, Ok tt) →
     download_glove net2 fs1 = (fs1, [Print AlreadyExists], Ok tt) ∧
     download_glove_twice net1 net2 fs
     = (fs1, log1 ++ [Print AlreadyExists], Ok tt)) ∧
  (∀ net1 net2 fs,
     (fetches (download_glove_twice net1 net2 fs).1.2 ≤ 1)%nat).
Proof.
  split_and!.
  - intros net fs H. by rewrite (download_glove_present _ _ H).
  - intros net1 net2 fs fs1 log1 H1.
    pose proof (download_glove_present net2 _ (download_glove_Ok _ _ _ _ H1)) as H2.
    split; [done|]. unfold download_glove_twice. by rewrite H1, H2.
  - intros net1 net2 fs. unfold download_glove_twice.
    pose proof (download_glove_fetches net1 fs) as Hf.
    destruct (download_glove net1 fs) as [[fs1 log1] [[]|e]] eqn:H1; [|exact Hf].
    rewrite (download_glove_present net2 _ (download_glove_Ok _ _ _ _ H1)).
    cbn [fst snd] in *. rewrite fetches_app, fetches_print, fetches_nil. lia.
Qed.

(** In an empty directory, with a server that sends the archive. *)
Lemma download_glove_idempotent_witness :
  download_glove_twice (Served Sample.archive) (Served Sample.archive) ∅
  = ({[ GLOVE_ZIP := Sample.archive; GLOVE_TXT := Text Sample.three ]},
     [Print Downloading; Fetch GLOVE_URL; WriteFile GLOVE_ZIP;
      Print DownloadComplete; Print Extracting; WriteFile GLOVE_TXT;
      Print Extracted; Print AlreadyExists],
     Ok tt).
Proof.
  destruct download_glove_idempotent as (_ & H & _).
  destruct (H (Served Sample.archive) (Served Sample.archive) ∅
              {[ GLOVE_ZIP := Sample.archive; GLOVE_TXT := Text Sample.three ]}
              [Print Downloading; Fetch GLOVE_URL; WriteFile GLOVE_ZIP;
               Print DownloadComplete; Print Extracting; WriteFile GLOVE_TXT;
               Print Extracted]) as [_ H2].
  - vm_compute. reflexivity.
  - exact H2.
Defined.

(** ** C9: the line-count cursor *)

(** C9, as stated, fails: the cursor is also read by the progress report.
    Line 50,000 of the file, of rank beyond the threshold like the line after
    it, is followed by a progress line that the next one is not followed by;
    a file of 50,000 lines shows that line in its output. *)
Lemma cursor_counterexample :
  ¬ cursor_only_ranks VOCAB_SIZE REQUIRED_WORDS ∧
  printed <$> generate_subset (replicate (Z.to_nat 50000) "x")
  = Ok [Reading; Progress 50000 0; Total 0; MissingWords REQUIRED_WORDS;
        Writing; Wrote].
Proof.
  split.
  - intros H. specialize (H start 49999 50000 "x" eq_refl).
    vm_compute in H. discriminate.
  - vm_compute. reflexivity.
Qed.

(** C9, amended: every turn of the loop that completes adds one to the
    cursor, whether the line was entered, dropped by the guard or not kept,
    so that the cursor is the zero-based position of the line being read;
    the table depends on the cursor through the rank test alone; the one
    other use of the cursor is the progress line, printed when the cursor
    reaches a multiple of 50,000 and giving the cursor and the size of the
    table. *)
Theorem cursor_counts_lines (k : Z) (required : gset string) :
  (∀ st line st', body k required st line = Ok st' →
                  line_count st' = line_count st + 1) ∧
  (∀ before st, loop k required start before = Ok st →
                line_count st = Z.of_nat (length before)) ∧
  (∀ st count1 count2 line,
     (count1 <? k) = (count2 <? k) →
     embeddings <$> body k required (with_count st count1) line
     = embeddings <$> body k required (with_count st count2) line) ∧
  (∀ st line st', body k required st line = Ok st' →
     stdout st' = stdout st ++
                  if (line_count st + 1) mod 50000 =? 0
                  then [Progress (line_count st + 1)
                          (Z.of_nat (size (embeddings st')))]
                  else []).
Proof.
  split_and!.
  - intros st line st'. apply body_count.
  - intros before st Hl. by rewrite (loop_count _ _ _ _ _ Hl).
  - intros st count1 count2 line Hc. rewrite !body_eq.
    destruct (parts_of line) as [|word tokens]; [done|].
    unfold keep. cbn [with_count line_count embeddings]. rewrite Hc.
    destruct ((count2 <? k) || bool_decide (word ∈ required));
      [destruct (vector tokens)|]; reflexivity.
  - intros st line st'. rewrite body_eq.
    destruct (parts_of line) as [|word tokens]; [done|].
    destruct (keep _ _ _ _); [destruct (vector tokens); [|done]|];
      by intros [= <-].
Qed.

(** On the file of three lines: the cursor ends at 3. *)
Lemma cursor_counts_lines_witness :
  ∃ st, loop 2 {["king"]} start Sample.three = Ok st ∧ line_count st = 3.
Proof.
  destruct (loop 2 {["king"]} start Sample.three) as [st|e] eqn:Hl;
    [|vm_compute in Hl; discriminate].
  exists st. split; [reflexivity|].
  destruct (cursor_counts_lines 2 {["king"]}) as (_ & H & _).
  exact (H Sample.three st Hl).
Defined.

(** * Further properties *)

Import Terms Script.

(** ** The tokens of a line *)

Section TokenFacts.

Lemma append_cons (c : ascii) (s1 s2 : string) :
  String c s1 +:+ s2 = String c (s1 +:+ s2).
Proof. reflexivity. Qed.

Lemma append_nil_r (s : string) : s +:+ "" = s.
Proof.
  induction s as [|c s IH]; [done|]. by rewrite append_cons, IH.
Qed.

Lemma append_assoc (s1 s2 s3 : string) :
  (s1 +:+ s2) +:+ s3 = s1 +:+ (s2 +:+ s3).
Proof.
  induction s1 as [|c s1 IH]; [done|]. by rewrite !append_cons, IH.
Qed.

Lemma append_empty (s1 s2 : string) : s1 +:+ s2 = "" → s1 = "" ∧ s2 = "".
Proof. destruct s1; [done|]. by rewrite append_cons. Qed.

Lemma solid_append (s1 s2 : string) :
  solid (s1 +:+ s2) = solid s1 && solid s2.
Proof.
  induction s1 as [|c s1 IH]; [done|].
  rewrite append_cons. simpl. by rewrite IH, andb_assoc.
Qed.

Lemma vector_raises_value (tokens : list string) (e : exn) :
  vector tokens = Raise e → e = ValueError.
Proof.
  induction tokens as [|t ts IH]; [done|]. rewrite vector_cons.
  destruct (py_float t) as [x|e'] eqn:Ex; simpl.
  - destruct (vector ts); simpl; [done|]. intros [= <-]. by apply IH.
  - intros [= <-]. by apply py_float_raises in Ex.
Qed.

Lemma flush_tokens (cur : string) :
  solid cur = true → Forall is_token (Str.flush cur).
Proof. destruct cur; repeat constructor; done. Qed.

Lemma split_go_tokens (cur s : string) :
  solid cur = true → Forall is_token (Str.split_go cur s).
Proof.
  revert cur. induction s as [|c s IH]; intros cur Hcur; simpl.
  - by apply flush_tokens.
  - destruct (Str.isspace c) eqn:Hc.
    + apply Forall_app. split; [by apply flush_tokens|by apply IH].
    + apply IH. rewrite solid_append. simpl. by rewrite Hcur, Hc.
Qed.

Lemma split_go_nil (cur s : string) :
  Str.split_go cur s = [] ↔ cur = "" ∧ Str.blank s = true.
Proof.
  revert cur. induction s as [|c s IH]; intros cur; simpl.
  - destruct cur; naive_solver.
  - destruct (Str.isspace c); simpl.
    + rewrite app_nil, IH. destruct cur; naive_solver.
    + rewrite IH. split; [|naive_solver].
      intros [[_ [=]]%append_empty _].
Qed.

Lemma split_lstrip (s : string) : Str.split (Str.lstrip s) = Str.split s.
Proof.
  unfold Str.split. induction s as [|c s IH]; simpl; [done|].
  destruct (Str.isspace c) eqn:Hc; [apply IH|]. simpl. by rewrite Hc.
Qed.

Lemma rstrip_empty (s : string) : Str.rstrip s = "" ↔ Str.blank s = true.
Proof.
  induction s as [|c s IH]; simpl; [done|].
  destruct (Str.rstrip s) eqn:Hr.
  - destruct (Str.isspace c); simpl; [tauto|]. split; done.
  - rewrite andb_true_iff, <- IH. split; [done|]. by intros [_ [=]].
Qed.

Lemma split_go_rstrip (cur s : string) :
  Str.split_go cur (Str.rstrip s) = Str.split_go cur s.
Proof.
  revert cur. induction s as [|c s IH]; intros cur; simpl; [done|].
  destruct (Str.rstrip s) as [|c' r] eqn:Hr.
  - apply rstrip_empty in Hr.
    destruct (Str.isspace c) eqn:Hc; simpl; rewrite ?Hc.
    + by rewrite (flush_blank_go _ _ Hr), app_nil_r.
    + by rewrite (flush_blank_go _ _ Hr).
  - simpl. rewrite <- !IH. by destruct (Str.isspace c).
Qed.

(** [strip] changes nothing for [split]. *)
Lemma split_strip (s : string) : Str.split (Str.strip s) = Str.split s.
Proof.
  unfold Str.strip. rewrite <- (split_lstrip s). apply split_go_rstrip.
Qed.

Lemma split_go_solid (cur t s : string) :
  solid t = true → Str.split_go cur (t +:+ s) = Str.split_go (cur +:+ t) s.
Proof.
  revert cur. induction t as [|c t IH]; intros cur Ht.
  - by rewrite append_nil_r.
  - simpl in Ht. apply andb_true_iff in Ht as [Hc Ht].
    apply negb_true_iff in Hc. rewrite append_cons. simpl.
    rewrite Hc, IH, append_assoc; done.
Qed.

End TokenFacts.

(** X1: [parts[0]] fails on the blank lines and on no others: a turn of the
    loop raises [IndexError] if and only if the line is empty or made of
    whitespace only, in whatever state it is read. *)
Theorem index_error_iff_blank
    (k : Z) (required : gset string) (st : loop_state) (line : string) :
  body k required st line = Raise IndexError ↔ Str.blank line = true.
Proof.
  split.
  - rewrite body_eq. destruct (parts_of line) as [|word tokens] eqn:Hp.
    + intros _. unfold parts_of in Hp. rewrite split_strip in Hp.
      by apply split_go_nil in Hp as [_ Hb].
    + destruct (keep _ _ _ _); [|done].
      destruct (vector tokens) as [vec|e] eqn:Hv; [done|].
      intros [= ->]. by apply vector_raises_value in Hv.
  - intros Hb. by rewrite body_eq, (parts_of_blank _ Hb).
Qed.

(** X2: whatever the line, its tokens are never empty and hold no
    whitespace; so neither does a key of the table, nor a member name of the
    output file. *)
Theorem keys_are_tokens :
  (∀ line, Forall is_token (parts_of line)) ∧
  (∀ k required lines o word,
     generate_subset_with k required lines = Ok o →
     word ∈ names (output_file o) →
     word ∈ dom (table o) ∧ is_token word).
Proof.
  split.
  - intros line. by apply split_go_tokens.
  - intros k required lines o word Ho Hin.
    destruct (generate_subset_with_Ok _ _ _ _ Ho) as (st & _ & _ & Hout).
    rewrite Hout in Hin. apply names_dump in Hin. split; [done|].
    apply (generate_subset_with_dom _ _ _ _ _ Ho) in Hin
      as (i & line & _ & Hw & _).
    unfold word_of in Hw.
    pose proof (split_go_tokens "" (Str.strip line) eq_refl) as Htok.
    fold (Str.split (Str.strip line)) in Htok. fold (parts_of line) in Htok.
    destruct (parts_of line) as [|w tokens]; [done|].
    injection Hw as <-. by apply Forall_inv in Htok.
Qed.

(** On the file of three lines: "king" is a member name, hence a token. *)
Lemma keys_are_tokens_witness :
  ∃ o, generate_subset_with 2 {["king"]} Sample.three = Ok o ∧ is_token "king".
Proof.
  destruct (generate_subset_with 2 {["king"]} Sample.three) as [o|e] eqn:Ho;
    [|vm_compute in Ho; discriminate].
  exists o. split; [reflexivity|].
  destruct keys_are_tokens as [_ H].
  apply (H 2 {["king"]} Sample.three o "king" Ho).
  vm_compute in Ho. injection Ho as <-.
  apply (bool_decide_unpack _). vm_compute. exact I.
Defined.

(** X3: the call to [strip] changes nothing: [line.strip().split()] and
    [line.split()] are the same list, for every line. *)
Theorem strip_changes_nothing (line : string) :
  parts_of line = Str.split line.
Proof. apply split_strip. Qed.

Section JoinFacts.

Lemma split_go_token (t s : string) :
  solid t = true → Str.split_go "" (t +:+ s) = Str.split_go t s.
Proof. intros Ht. by rewrite split_go_solid. Qed.

Lemma split_go_unwords (tokens : list string) :
  Forall is_token tokens →
  Str.split_go "" (unwords tokens +:+ String "010" "") = tokens.
Proof.
  induction tokens as [|t ts IH]; [done|]. intros Htok.
  apply Forall_cons in Htok as [[Hnt Hsolid] Hts].
  assert (Str.flush t = [t]) as Hflush by (by destruct t).
  destruct ts as [|t' ts'].
  - change (unwords [t]) with t. rewrite split_go_token by done.
    simpl. by rewrite Hflush.
  - change (unwords (t :: t' :: ts'))
      with (t +:+ String " " "" +:+ unwords (t' :: ts')).
    rewrite !append_assoc, split_go_token by done.
    rewrite append_cons. simpl. rewrite Hflush. simpl. f_equal.
    by apply IH.
Qed.

End JoinFacts.

(** X4: a line written as a word and tokens with single spaces between
    them and a line feed at its end is read back as that word and those
    tokens, whenever they are tokens: not empty and free of whitespace. *)
Theorem split_of_join (tokens : list string) :
  Forall is_token tokens →
  parts_of (unwords tokens +:+ String "010" "") = tokens.
Proof.
  intros Htok. unfold parts_of. rewrite split_strip.
  by apply split_go_unwords.
Qed.

(** On a line of a word and two numbers. *)
Lemma split_of_join_witness :
  parts_of ("king 0.5 -1e-3" +:+ String "010" "") = ["king"; "0.5"; "-1e-3"].
Proof.
  apply (split_of_join ["king"; "0.5"; "-1e-3"]).
  repeat constructor; done.
Defined.

(** ** When the run returns, and how it fails *)

Section ReturnFacts.
Variable vocab_size : Z.
Variable required_words : gset string.

#[local] Abbreviation keep := (keep vocab_size required_words).
#[local] Abbreviation body := (body vocab_size required_words).
#[local] Abbreviation loop := (loop vocab_size required_words).
#[local] Abbreviation passes := (passes vocab_size required_words).

Lemma body_returns (st : loop_state) (line : string) :
  returns (body st line) ↔ passes (line_count st) line.
Proof.
  rewrite body_eq. unfold Terms.passes. split.
  - destruct (parts_of line) as [|word tokens]; [by intros [? [=]]|].
    intros Hret. exists word, tokens. split; [done|]. intros Hk.
    rewrite Hk in Hret. apply vector_numeric.
    destruct (vector tokens); [by eexists|by destruct Hret].
  - intros (word & tokens & -> & Hnum).
    destruct (keep (line_count st) word); [|by eexists].
    destruct (proj1 (vector_numeric tokens) (Hnum eq_refl)) as [vec ->].
    by eexists.
Qed.

(** What a turn raises, and on what line. *)
Lemma body_raises (st : loop_state) (line : string) (e : exn) :
  body st line = Raise e →
  (e = IndexError ∧ Str.blank line = true) ∨
  (e = ValueError ∧
   ∃ word tokens, parts_of line = word :: tokens ∧
                  keep (line_count st) word = true ∧
                  ¬ Forall numeric tokens).
Proof.
  rewrite body_eq. destruct (parts_of line) as [|word tokens] eqn:Hp.
  - intros [= <-]. left. split; [done|].
    unfold parts_of in Hp. rewrite split_strip in Hp.
    by apply split_go_nil in Hp as [_ Hb].
  - destruct (keep (line_count st) word) eqn:Hk; [|done].
    destruct (vector tokens) as [vec|e'] eqn:Hv; [done|].
    intros [= <-]. right. split; [by apply vector_raises_value in Hv|].
    exists word, tokens. split_and!; [done..|].
    intros [vec Hvec]%vector_numeric. congruence.
Qed.

Lemma loop_returns (st : loop_state) (lines : list string) :
  returns (loop st lines) ↔
  ∀ (i : nat) line, lines !! i = Some line →
                    passes (line_count st + Z.of_nat i) line.
Proof.
  revert st. induction lines as [|l ls IH]; intros st; simpl.
  - split; [by intros _ i line|by eexists].
  - split.
    + intros Hret.
      destruct (body st l) as [st1|] eqn:Hb; simpl in Hret; [|by destruct Hret].
      intros [|i] line Hi; simpl in Hi.
      * injection Hi as <-. rewrite Z.add_0_r. apply body_returns.
        rewrite Hb. by eexists.
      * apply (proj1 (IH st1) Hret) in Hi.
        rewrite (body_count _ _ _ _ _ Hb) in Hi.
        by replace (line_count st + Z.of_nat (S i))
          with (line_count st + 1 + Z.of_nat i) by lia.
    + intros Hall.
      destruct (proj2 (body_returns st l)) as [st1 Hb].
      { specialize (Hall 0%nat l eq_refl). by rewrite Z.add_0_r in Hall. }
      rewrite Hb. simpl. apply IH. intros i line Hi.
      rewrite (body_count _ _ _ _ _ Hb).
      specialize (Hall (S i) line Hi).
      by replace (line_count st + 1 + Z.of_nat i)
        with (line_count st + Z.of_nat (S i)) by lia.
Qed.

Lemma loop_raises (st : loop_state) (lines : list string) (e : exn) :
  loop st lines = Raise e →
  ∃ (i : nat) line st',
    lines !! i = Some line ∧
    loop st (take i lines) = Ok st' ∧
    line_count st' = line_count st + Z.of_nat i ∧
    body st' line = Raise e.
Proof.
  revert st. induction lines as [|l ls IH]; intros st; simpl; [done|].
  destruct (body st l) as [st1|e'] eqn:Hb; simpl.
  - intros (i & line & st' & Hi & Hpre & Hc & He)%IH.
    exists (S i), line, st'. simpl. rewrite Hb. simpl.
    split_and!; [done..| |done].
    rewrite Hc, (body_count _ _ _ _ _ Hb). lia.
  - intros [= ->]. exists 0%nat, l, st. simpl.
    split_and!; [done..|lia|done].
Qed.

End ReturnFacts.

(** X5: the run returns if and only if every line of the file has a word
    and every kept line has only tokens that [float] accepts after its
    word; lines that are not kept may have anything after their word. *)
Theorem returns_iff_lines_pass
    (k : Z) (required : gset string) (lines : list string) :
  returns (generate_subset_with k required lines) ↔
  ∀ (i : nat) line, lines !! i = Some line →
                    passes k required (Z.of_nat i) line.
Proof.
  rewrite generate_subset_with_eq.
  rewrite <- (loop_returns k required start lines).
  unfold returns. destruct (loop k required start lines) as [st|e].
  - split; intros _; by eexists.
  - split; by intros [? [=]].
Qed.

(** X6: a run that raises stops at the first line that does not pass: the
    lines before it pass, the error is [IndexError] when that line is blank
    and [ValueError] when it is kept and has a token that is no number, and
    there is no other error. *)
Theorem first_failure
    (k : Z) (required : gset string) (lines : list string) (e : exn) :
  generate_subset_with k required lines = Raise e →
  ∃ (i : nat) line,
    lines !! i = Some line ∧
    (∀ (j : nat) l, (j < i)%nat → lines !! j = Some l →
                    passes k required (Z.of_nat j) l) ∧
    ((e = IndexError ∧ Str.blank line = true) ∨
     (e = ValueError ∧
      ∃ word tokens, parts_of line = word :: tokens ∧
                     keep k required (Z.of_nat i) word = true ∧
                     ¬ Forall numeric tokens)).
Proof.
  rewrite generate_subset_with_eq.
  destruct (loop k required start lines) as [st|e'] eqn:Hl; [done|].
  intros [= ->].
  destruct (loop_raises _ _ _ _ _ Hl) as (i & line & st' & Hi & Hpre & Hc & He).
  exists i, line. split_and!; [done| |].
  - intros j l Hj Hjl.
    assert (returns (loop k required start (take i lines))) as Hret
      by (by eexists).
    apply (proj1 (loop_returns _ _ _ _) Hret j l).
    by rewrite lookup_take_lt.
  - apply body_raises in He. simpl in Hc. by rewrite Hc in He.
Qed.

(** On the file whose second line is empty. *)
Lemma first_failure_witness :
  ∃ (i : nat) line,
    Sample.gap !! i = Some line ∧
    (∀ (j : nat) l, (j < i)%nat → Sample.gap !! j = Some l →
                    passes 0 {["king"]} (Z.of_nat j) l) ∧
    ((IndexError = IndexError ∧ Str.blank line = true) ∨
     (IndexError = ValueError ∧
      ∃ word tokens, parts_of line = word :: tokens ∧
                     keep 0 {["king"]} (Z.of_nat i) word = true ∧
                     ¬ Forall numeric tokens)).
Proof.
  apply (first_failure 0 {["king"]} Sample.gap IndexError).
  vm_compute. reflexivity.
Defined.

(** ** A word that comes more than once *)

Section LastFacts.
Variable vocab_size : Z.
Variable required_words : gset string.

#[local] Abbreviation body := (body vocab_size required_words).
#[local] Abbreviation loop := (loop vocab_size required_words).
#[local] Abbreviation selects := (selects vocab_size required_words).

Lemma loop_snoc (st : loop_state) (lines : list string) (line : string) :
  loop st (lines ++ [line]) = st1 ← loop st lines; body st1 line.
Proof.
  rewrite loop_app. destruct (loop st lines) as [st1|]; simpl; [|done].
  by destruct (body st1 line).
Qed.

(** The entry of [word] after the loop: the vector of the last line that
    puts [word] in the table or, without such a line, the entry before. *)
Lemma loop_lookup_last (st st' : loop_state) (lines : list string)
    (word : string) (vec : list float) :
  loop st lines = Ok st' →
  embeddings st' !! word = Some vec ↔
  (∃ (i : nat) line,
     lines !! i = Some line ∧
     selects (line_count st + Z.of_nat i) line word ∧
     vector (tail (parts_of line)) = Ok vec ∧
     ∀ (j : nat) l, (i < j)%nat → lines !! j = Some l →
                    ¬ selects (line_count st + Z.of_nat j) l word) ∨
  (embeddings st !! word = Some vec ∧
   ∀ (j : nat) l, lines !! j = Some l →
                  ¬ selects (line_count st + Z.of_nat j) l word).
Proof.
  revert st'. induction lines as [|last ls IH] using rev_ind; intros st'.
  { intros [= <-]. split; [by right|].
    by intros [(i & line & ? & _)|[? _]]. }
  rewrite loop_snoc.
  destruct (loop st ls) as [st1|] eqn:Hl; simpl; [|done]. intros Hb.
  pose proof (loop_count _ _ _ _ _ Hl) as Hc.
  pose proof (body_lookup _ _ _ _ _ word Hb) as Hw. rewrite Hc in Hw.
  specialize (IH st1 eq_refl).
  destruct (decide (selects (line_count st + Z.of_nat (length ls)) last word))
    as [Hs|Hs].
  - (* the last line puts the word in *)
    assert (∃ v, vector (tail (parts_of last)) = Ok v) as [v Hv].
    { destruct Hs as (Hword & Hk & _). revert Hb. rewrite body_eq.
      unfold word_of in Hword. destruct (parts_of last) as [|w ts]; [done|].
      simpl in *. injection Hword as ->. rewrite <- Hc in Hk. rewrite Hk.
      destruct (vector ts); [by eexists|done]. }
    rewrite Hv, bool_decide_eq_true_2 in Hw by done. rewrite Hw. split.
    + intros [= <-]. left. exists (length ls), last.
      split_and!; [by apply list_lookup_middle|done..|].
      intros j l Hj Hjl. apply lookup_lt_Some in Hjl.
      rewrite length_app in Hjl. simpl in Hjl. lia.
    + intros [(i & line & Hi & _ & Hvec & Hlater)|[_ Hnone]].
      * apply lookup_snoc_Some in Hi as [[Hlt Hi]|[-> ->]]; [|congruence].
        destruct (Hlater (length ls) last Hlt); [|done].
        by apply list_lookup_middle.
      * destruct (Hnone (length ls) last); [|done].
        by apply list_lookup_middle.
  - (* the last line leaves the entry as it was *)
    assert (embeddings st' !! word = embeddings st1 !! word) as ->.
    { rewrite Hw. destruct (vector _); [|done].
      by rewrite bool_decide_eq_false_2. }
    rewrite IH. split.
    + intros [(i & line & Hi & Hsel & Hvec & Hlater)|[H0 Hnone]]; [left|right].
      * exists i, line. split_and!; [|done..|].
        { apply lookup_snoc_Some. left. split; [|done].
          by apply lookup_lt_Some in Hi. }
        intros j l Hj [[_ Hjl]|[-> ->]]%lookup_snoc_Some; [|done].
        by apply (Hlater j l).
      * split; [done|].
        intros j l [[_ Hjl]|[-> ->]]%lookup_snoc_Some; [|done].
        by apply (Hnone j l).
    + intros [(i & line & Hi & Hsel & Hvec & Hlater)|[H0 Hnone]]; [left|right].
      * apply lookup_snoc_Some in Hi as [[Hlt Hi]|[-> ->]]; [|done].
        exists i, line. split_and!; [done..|].
        intros j l Hj Hjl. apply (Hlater j l Hj).
        apply lookup_snoc_Some. left. split; [|done].
        by apply lookup_lt_Some in Hjl.
      * split; [done|]. intros j l Hjl. apply (Hnone j l).
        apply lookup_snoc_Some. left. split; [|done].
        by apply lookup_lt_Some in Hjl.
Qed.

End LastFacts.

(** X7: when a word is given by several lines that enter the table, the
    last of them wins: the vector stored under a word is the rounded vector
    of the last line of the file that is kept, carries 50 tokens after the
    word and has that word. *)
Theorem last_line_wins
    (k : Z) (required : gset string) (lines : list string) (o : outcome)
    (word : string) (vec : list float) :
  generate_subset_with k required lines = Ok o →
  table o !! word = Some vec ↔
  ∃ (i : nat) line,
    lines !! i = Some line ∧
    selects k required (Z.of_nat i) line word ∧
    vector (tail (parts_of line)) = Ok vec ∧
    ∀ (j : nat) l, (i < j)%nat → lines !! j = Some l →
                   ¬ selects k required (Z.of_nat j) l word.
Proof.
  intros (st & Hl & -> & _)%generate_subset_with_Ok.
  rewrite (loop_lookup_last _ _ _ _ _ _ vec Hl). simpl.
  rewrite lookup_empty. split; [|by left].
  by intros [?|[[=] _]].
Qed.

(** On the file that gives "the" twice: the second vector is the one kept. *)
Lemma last_line_wins_witness :
  ∃ o, generate_subset_with 2 {["king"]} Sample.twice = Ok o ∧
       table o !! "the" = Some (replicate 50 (S754_finite false 4503599627370496 (-54))).
Proof.
  destruct (generate_subset_with 2 {["king"]} Sample.twice) as [o|e] eqn:Ho;
    [|vm_compute in Ho; discriminate].
  exists o. split; [reflexivity|].
  apply (last_line_wins 2 {["king"]} Sample.twice o "the" _ Ho).
  exists 1%nat, (Sample.row "the" "0.25" 50). split_and!.
  - reflexivity.
  - split_and!; by vm_compute.
  - vm_compute. reflexivity.
  - intros [|[|j]] l Hj Hl; [lia..|done].
Defined.

(** ** How large the table can get *)

Section SizeFacts.

Lemma size_list_to_set_le (l : list string) :
  (size (list_to_set l : gset string) ≤ length l)%nat.
Proof.
  induction l as [|x l IH].
  - by rewrite list_to_set_nil, size_empty.
  - rewrite list_to_set_cons, size_union_alt, size_singleton. simpl.
    pose proof (subseteq_size (list_to_set l ∖ {[x]}) (list_to_set l : gset string)
                  ltac:(set_solver)).
    lia.
Qed.

Lemma omap_length_le {A B} (f : A → option B) (l : list A) :
  (length (omap f l) ≤ length l)%nat.
Proof.
  induction l as [|x l IH]; simpl; [done|]. destruct (f x); simpl.
  - apply le_n_S, IH.
  - apply Nat.le_trans with (length l); [apply IH|lia].
Qed.

Lemma size_union_le (X Y : gset string) :
  (size (X ∪ Y) ≤ size X + size Y)%nat.
Proof.
  rewrite size_union_alt.
  pose proof (subseteq_size (Y ∖ X) Y ltac:(set_solver)). lia.
Qed.

Lemma table_within (k : Z) (required : gset string) (lines : list string)
    (o : outcome) :
  generate_subset_with k required lines = Ok o →
  dom (table o) ⊆ list_to_set (omap word_of (take (Z.to_nat k) lines)) ∪ required ∧
  dom (table o) ⊆ list_to_set (omap word_of lines).
Proof.
  intros Ho. split; intros word Hin;
    apply (generate_subset_with_dom _ _ _ _ _ Ho) in Hin
      as (i & line & Hi & Hw & Hk & _).
  - apply keep_iff in Hk as [Hlt|Hr]; [|set_solver].
    apply elem_of_union_l, elem_of_list_to_set, elem_of_words.
    exists i, line. split; [|done]. apply lookup_take_Some. split; [done|lia].
  - apply elem_of_list_to_set, elem_of_words. eauto.
Qed.

End SizeFacts.

(** X8: the table has at most K entries more than there are required words,
    and no more entries than the file has lines; with the constants of the
    script, that is at most 5,140 entries. *)
Theorem size_at_most :
  (∀ k required lines o,
     generate_subset_with k required lines = Ok o →
     Z.of_nat (size (table o)) ≤ Z.max 0 k + Z.of_nat (size required) ∧
     (size (table o) ≤ length lines)%nat) ∧
  (∀ lines o, generate_subset lines = Ok o →
              Z.of_nat (size (table o)) ≤ 5140).
Proof.
  assert (∀ k required lines o,
     generate_subset_with k required lines = Ok o →
     Z.of_nat (size (table o)) ≤ Z.max 0 k + Z.of_nat (size required) ∧
     (size (table o) ≤ length lines)%nat) as Hgen.
  { intros k required lines o Ho.
    destruct (table_within _ _ _ _ Ho) as [H1 H2].
    apply subseteq_size in H1, H2. rewrite size_dom in H1, H2.
    pose proof (size_union_le
                  (list_to_set (omap word_of (take (Z.to_nat k) lines)))
                  required) as Hu.
    pose proof (size_list_to_set_le (omap word_of (take (Z.to_nat k) lines))).
    pose proof (size_list_to_set_le (omap word_of lines)).
    pose proof (omap_length_le word_of (take (Z.to_nat k) lines)).
    pose proof (omap_length_le word_of lines).
    pose proof (length_take_le lines (Z.to_nat k)).
    rewrite length_take in *. lia. }
  split; [exact Hgen|].
  intros lines o Ho. destruct (Hgen _ _ _ _ Ho) as [H _].
  assert (Z.of_nat (size REQUIRED_WORDS) = 140) as Hr by (by vm_compute).
  rewrite Hr in H. unfold VOCAB_SIZE in H. lia.
Qed.

(** On the file of three lines, for a threshold of 2 and one required
    word. *)
Lemma size_at_most_witness :
  ∃ o, generate_subset_with 2 {["king"]} Sample.three = Ok o ∧
       Z.of_nat (size (table o)) ≤ 3.
Proof.
  destruct (generate_subset_with 2 {["king"]} Sample.three) as [o|e] eqn:Ho;
    [|vm_compute in Ho; discriminate].
  exists o. split; [reflexivity|].
  destruct size_at_most as [H _].
  destruct (H 2 {["king"]} Sample.three o Ho) as [H1 _].
  rewrite size_singleton in H1. exact H1.
Defined.

(** ** Lines beyond the threshold *)

Section BeyondFacts.
Variable vocab_size : Z.
Variable required_words : gset string.

#[local] Abbreviation keep := (keep vocab_size required_words).
#[local] Abbreviation body := (body vocab_size required_words).
#[local] Abbreviation loop := (loop vocab_size required_words).

Lemma advance_count (st : loop_state) (emb : gmap string (list float)) :
  line_count (advance st emb) = line_count st + 1.
Proof. reflexivity. Qed.

Lemma advance_embeddings (st : loop_state) (emb : gmap string (list float)) :
  embeddings (advance st emb) = emb.
Proof. reflexivity. Qed.

(** Beyond the threshold a turn looks at the word alone to keep a line. *)
Lemma keep_beyond (count : Z) (word : string) :
  vocab_size ≤ count → keep count word = bool_decide (word ∈ required_words).
Proof.
  intros Hc. unfold Glove.keep.
  by rewrite (proj2 (Z.ltb_ge count vocab_size) Hc).
Qed.

Lemma loop_beyond (st1 st2 st1' : loop_state) (lines : list string) :
  vocab_size ≤ line_count st1 →
  vocab_size ≤ line_count st2 →
  embeddings st1 = embeddings st2 →
  loop st1 lines = Ok st1' →
  ∃ st2', loop st2 (filter (gives_required required_words) lines) = Ok st2' ∧
          embeddings st2' = embeddings st1'.
Proof.
  revert st1 st2. induction lines as [|l ls IH]; intros st1 st2 H1 H2 He; simpl.
  - intros [= <-]. by exists st2.
  - destruct (body st1 l) as [st|] eqn:Hb; simpl; [|done]. intros Hl.
    revert Hb. rewrite body_eq, filter_cons. unfold gives_required, word_of.
    destruct (parts_of l) as [|word tokens] eqn:Hp; [done|]. simpl.
    rewrite (keep_beyond _ _ H1).
    destruct (bool_decide (word ∈ required_words)) eqn:Hr.
    + destruct (decide _) as [_|Hd]; [|by destruct Hd].
      destruct (vector tokens) as [vec|] eqn:Hv; [|done]. intros [= <-].
      simpl. rewrite body_eq, Hp, (keep_beyond _ _ H2), Hr, Hv. simpl.
      refine (IH _ _ _ _ _ Hl).
      * rewrite advance_count. lia.
      * rewrite advance_count. lia.
      * by rewrite !advance_embeddings, He.
    + destruct (decide _) as [Hd|_]; [by destruct Hd|]. intros [= <-].
      refine (IH _ _ _ H2 _ Hl); [rewrite advance_count; lia|done].
Qed.

End BeyondFacts.

(** X9: beyond the first K lines only the lines that give a required word
    count: a run that returns builds the same table, and writes the same
    document, as the run on the file from which every later line with
    another word has been taken out. *)
Theorem later_lines_count_by_word
    (k : Z) (required : gset string) (lines : list string) (o : outcome) :
  generate_subset_with k required lines = Ok o →
  ∃ o', generate_subset_with k required
          (take (Z.to_nat k) lines ++
           filter (gives_required required) (drop (Z.to_nat k) lines)) = Ok o' ∧
        table o' = table o ∧
        output_file o' = output_file o.
Proof.
  intros Ho.
  destruct (generate_subset_with_Ok _ _ _ _ Ho) as (st & Hl & Ht & Hout).
  set (n := Z.to_nat k) in *.
  assert (∃ st', loop k required start
                   (take n lines ++ filter (gives_required required) (drop n lines))
                 = Ok st' ∧ embeddings st' = embeddings st) as (st' & Hl' & He).
  { rewrite <- (take_drop n lines), loop_app in Hl.
    destruct (loop k required start (take n lines)) as [st1|] eqn:H1; [|done].
    simpl in Hl. rewrite loop_app, H1. simpl.
    destruct (decide (n ≤ length lines)%nat) as [Hn|Hn].
    - apply (loop_beyond _ _ st1 st1 st); [| |done..];
        rewrite (loop_count _ _ _ _ _ H1), length_take; simpl; lia.
    - rewrite drop_ge in Hl |- * by lia. by exists st. }
  eexists. rewrite generate_subset_with_eq, Hl'. split; [reflexivity|].
  simpl. rewrite Hout, Ht, He. done.
Qed.

(** On a file of four lines, for a threshold of 1: the lines for "beta" and
    "gamma" can go, the line for "king" stays. *)
Lemma later_lines_count_by_word_witness :
  ∃ o o', generate_subset_with 1 {["king"]}
            [Sample.row "alpha" "0.1" 50; Sample.row "beta" "0.2" 50;
             Sample.row "king" "0.3" 50; Sample.row "gamma" "oops" 3] = Ok o ∧
          generate_subset_with 1 {["king"]}
            [Sample.row "alpha" "0.1" 50; Sample.row "king" "0.3" 50] = Ok o' ∧
          table o' = table o.
Proof.
  destruct (generate_subset_with 1 {["king"]}
              [Sample.row "alpha" "0.1" 50; Sample.row "beta" "0.2" 50;
               Sample.row "king" "0.3" 50; Sample.row "gamma" "oops" 3])
    as [o|e] eqn:Ho; [|vm_compute in Ho; discriminate].
  destruct (later_lines_count_by_word _ _ _ _ Ho) as (o' & Ho' & Ht & _).
  exists o, o'. split; [reflexivity|]. split; [|exact Ht].
  rewrite <- Ho'. reflexivity.
Defined.

(** ** The report on the required words *)

(** X10: the run prints that all required words were found if and only if
    each required word is the word of some line with exactly 50 tokens after
    it, wherever in the file; otherwise, and only then, it prints the
    warning with the words that are missing. *)
Theorem all_found_iff
    (k : Z) (required : gset string) (lines : list string) (o : outcome) :
  generate_subset_with k required lines = Ok o →
  (AllFound ∈ printed o ↔
   ∀ word, word ∈ required →
           ∃ (i : nat) line, lines !! i = Some line ∧
                             word_of line = Some word ∧
                             dimension line = 50%nat) ∧
  (AllFound ∉ printed o ↔
   MissingWords (required ∖ dom (table o)) ∈ printed o).
Proof.
  intros Ho.
  assert (required ∖ dom (table o) = ∅ ↔
          ∀ word, word ∈ required →
                  ∃ (i : nat) line, lines !! i = Some line ∧
                                    word_of line = Some word ∧
                                    dimension line = 50%nat) as Hfound.
  { split.
    - intros He word Hr.
      assert (word ∈ dom (table o)) as Hin.
      { destruct (decide (word ∈ dom (table o))); [done|]. set_solver. }
      apply (generate_subset_with_dom _ _ _ _ _ Ho) in Hin
        as (i & line & Hi & Hw & _ & Hd). eauto.
    - intros Hall. apply set_eq. intros word. split; [|set_solver].
      intros [Hr Hnot]%elem_of_difference. destruct Hnot.
      destruct (Hall word Hr) as (i & line & Hi & Hw & Hd).
      apply (generate_subset_with_dom _ _ _ _ _ Ho).
      exists i, line. split; [done|]. split_and!; [done| |done].
      apply keep_iff. by right. }
  rewrite <- Hfound. revert Ho. rewrite generate_subset_with_eq.
  destruct (loop k required start lines) as [st|] eqn:Hl; [|done].
  intros [= <-]. simpl.
  destruct (loop_stdout _ _ _ _ _ Hl) as (more & -> & Hmore). simpl.
  assert (∀ e, is_progress e = false → e ∉ more) as Hnot.
  { intros e He Hin. eapply Forall_forall in Hmore; [|done].
    by rewrite He in Hmore. }
  pose proof (Hnot AllFound eq_refl) as Hn1.
  pose proof (Hnot (MissingWords (required ∖ dom (embeddings st))) eq_refl) as Hn2.
  case_bool_decide as Hd; split.
  - split; [done|]. intros _. set_solver.
  - split; [intros Hn; destruct Hn; set_solver|].
    intros Hin Hall.
    rewrite !elem_of_cons, elem_of_app, !elem_of_cons in Hin.
    destruct Hin as [[=]|[?|[[=]|[[=]|[[=]|[[=]|H]]]]]]; try done.
    by apply elem_of_nil in H.
  - split; [|done]. intros Hin.
    rewrite !elem_of_cons, elem_of_app, !elem_of_cons in Hin.
    destruct Hin as [[=]|[?|[[=]|[[=]|[[=]|[[=]|H]]]]]]; try done.
    by apply elem_of_nil in H.
  - split; [intros _; set_solver|]. intros _ Hin.
    rewrite !elem_of_cons, elem_of_app, !elem_of_cons in Hin.
    destruct Hin as [[=]|[?|[[=]|[[=]|[[=]|[[=]|H]]]]]]; try done.
    by apply elem_of_nil in H.
Qed.

(** On the file of three lines, where "king" is the one required word. *)
Lemma all_found_iff_witness :
  ∃ o, generate_subset_with 2 {["king"]} Sample.three = Ok o ∧
       AllFound ∈ printed o.
Proof.
  destruct (generate_subset_with 2 {["king"]} Sample.three) as [o|e] eqn:Ho;
    [|vm_compute in Ho; discriminate].
  exists o. split; [reflexivity|].
  apply (all_found_iff 2 {["king"]} Sample.three o Ho).
  intros word ->%elem_of_singleton.
  exists 2%nat, (Sample.row "king" "0.1234567" 50).
  split_and!; by vm_compute.
Defined.

(** ** The progress lines *)

Section ProgressFacts.
Variable vocab_size : Z.
Variable required_words : gset string.

#[local] Abbreviation body := (body vocab_size required_words).
#[local] Abbreviation loop := (loop vocab_size required_words).

Lemma div_succ (c : Z) :
  0 ≤ c →
  (c + 1) / 50000 - c / 50000 = if (c + 1) mod 50000 =? 0 then 1 else 0.
Proof.
  intros Hc.
  pose proof (Z.div_mod c 50000 ltac:(done)).
  pose proof (Z.div_mod (c + 1) 50000 ltac:(done)).
  pose proof (Z.mod_pos_bound c 50000 ltac:(done)).
  pose proof (Z.mod_pos_bound (c + 1) 50000 ltac:(done)).
  destruct (Z.eqb_spec ((c + 1) mod 50000) 0); lia.
Qed.

(** A turn adds at most one entry to the table. *)
Lemma body_size (st st' : loop_state) (line : string) :
  body st line = Ok st' →
  (size (embeddings st') ≤ S (size (embeddings st)))%nat.
Proof.
  rewrite body_eq. destruct (parts_of line) as [|word tokens]; [done|].
  destruct (keep _ _ _ _); [destruct (vector tokens) as [vec|]; [|done]|];
    intros [= <-]; rewrite advance_embeddings; [|lia].
  case_bool_decide; [|lia].
  destruct (embeddings st !! word) eqn:Hw.
  - rewrite map_size_insert_Some by done. lia.
  - rewrite map_size_insert_None by done. lia.
Qed.

(** The progress lines of the loop, from a state in which the table has no
    more entries than lines were read. *)
Lemma loop_progress (st st' : loop_state) (lines : list string) :
  0 ≤ line_count st →
  Z.of_nat (size (embeddings st)) ≤ line_count st →
  loop st lines = Ok st' →
  ∃ more,
    stdout st' = stdout st ++ more ∧
    Z.of_nat (length more) = line_count st' / 50000 - line_count st / 50000 ∧
    Forall (fun e => ∃ c n, e = Progress c n ∧ c mod 50000 = 0 ∧
                            line_count st < c ≤ line_count st' ∧
                            0 ≤ n ≤ c) more.
Proof.
  revert st. induction lines as [|l ls IH]; intros st Hc Hsize; simpl.
  - intros [= <-]. exists []. rewrite app_nil_r, Z.sub_diag. by repeat split.
  - destruct (body st l) as [st1|] eqn:Hb; simpl; [|done]. intros Hl.
    pose proof (body_count _ _ _ _ _ Hb) as Hc1.
    pose proof (body_size _ _ _ Hb) as Hs1.
    pose proof (loop_count _ _ _ _ _ Hl) as Hc'.
    destruct (IH st1 ltac:(lia) ltac:(lia) Hl) as (more & Hout & Hlen & Hall).
    assert (stdout st1 = stdout st ++
              if (line_count st + 1) mod 50000 =? 0
              then [Progress (line_count st + 1)
                      (Z.of_nat (size (embeddings st1)))]
              else []) as Hout1.
    { revert Hb. rewrite body_eq. destruct (parts_of l); [done|].
      destruct (keep _ _ _ _); [destruct (vector _); [|done]|];
        by intros [= <-]. }
    pose proof (div_succ _ Hc) as Hdiv. rewrite <- Hc1 in Hdiv.
    exists ((if (line_count st + 1) mod 50000 =? 0
             then [Progress (line_count st + 1)
                     (Z.of_nat (size (embeddings st1)))]
             else []) ++ more).
    rewrite Hout, Hout1, <- app_assoc, length_app. split_and!; [done| |].
    + rewrite <- Hc1 in *.
      destruct (line_count st1 mod 50000 =? 0); simpl length; lia.
    + apply Forall_app. split.
      * destruct (Z.eqb_spec ((line_count st + 1) mod 50000) 0) as [Hm|];
          [|constructor].
        repeat constructor. eexists _, _. split; [done|]. lia.
      * eapply Forall_impl; [exact Hall|]. simpl.
        intros e (c & n & -> & ? & ? & ?). eexists _, _. split; [done|]. lia.
Qed.

End ProgressFacts.

(** X11: a run that returns on a file of N lines prints one progress line
    for each full 50,000 lines, N / 50,000 in all; each gives a number of
    lines that is a multiple of 50,000, not zero and not above N, and a
    number of words kept that is not above that number of lines. *)
Theorem progress_lines
    (k : Z) (required : gset string) (lines : list string) (o : outcome) :
  generate_subset_with k required lines = Ok o →
  Z.of_nat (length (filter is_progress (printed o)))
  = Z.of_nat (length lines) / 50000 ∧
  ∀ c n, Progress c n ∈ printed o →
         c mod 50000 = 0 ∧ 0 < c ≤ Z.of_nat (length lines) ∧ 0 ≤ n ≤ c.
Proof.
  rewrite generate_subset_with_eq.
  destruct (loop k required start lines) as [st|] eqn:Hl; [|done].
  intros [= <-]. simpl.
  assert (0 ≤ line_count start) as H0 by done.
  assert (Z.of_nat (size (embeddings start)) ≤ line_count start) as Hs
    by (by vm_compute).
  destruct (loop_progress _ _ _ _ _ H0 Hs Hl) as (more & -> & Hlen & Hall).
  clear H0 Hs.
  rewrite (loop_count _ _ _ _ _ Hl) in *. simpl in *.
  rewrite Z.sub_0_r in Hlen.
  split.
  - rewrite filter_cons, decide_False by (by intros []).
    rewrite filter_app.
    assert (filter is_progress more = more) as ->.
    { clear Hlen. induction Hall as [|e l (c & n & -> & _) _ IH]; [done|].
      rewrite filter_cons, decide_True by done. by rewrite IH. }
    assert (∀ l : unit, filter is_progress
                   (Total (Z.of_nat (size (embeddings st))) ::
                    (if bool_decide (required ∖ dom (embeddings st) = ∅)
                     then AllFound
                     else MissingWords (required ∖ dom (embeddings st))) ::
                    [Writing; Wrote]) = []) as Hrest by
      (intros _; by case_bool_decide).
    by rewrite (Hrest tt), app_nil_r, Hlen.
  - intros c n Hin.
    rewrite !elem_of_cons, elem_of_app, !elem_of_cons in Hin.
    destruct Hin as [[=]|[Hin|[[=]|[Hin|[[=]|[[=]|Hin]]]]]].
    + eapply Forall_forall in Hall; [|exact Hin].
      destruct Hall as (c' & n' & [= <- <-] & ? & ? & ?). lia.
    + by case_bool_decide.
    + by apply elem_of_nil in Hin.
Qed.

(** On the file of three lines, too short for a progress line. *)
Lemma progress_lines_witness :
  ∃ o, generate_subset_with 2 {["king"]} Sample.three = Ok o ∧
       Z.of_nat (length (filter is_progress (printed o))) = 0.
Proof.
  destruct (generate_subset_with 2 {["king"]} Sample.three) as [o|e] eqn:Ho;
    [|vm_compute in Ho; discriminate].
  exists o. split; [reflexivity|].
  destruct (progress_lines _ _ _ _ Ho) as [H _]. rewrite H. reflexivity.
Defined.

(** ** More on the download *)

Section ArchiveFacts.

Lemma exists_false (path : string) (fs : gmap string content) :
  exists_ path fs = false ↔ fs !! path = None.
Proof.
  unfold exists_. rewrite bool_decide_eq_false, <- eq_None_not_Some. done.
Qed.

Lemma zip_is_not_txt : GLOVE_ZIP ≠ GLOVE_TXT.
Proof. done. Qed.

(** An archive gives the member whole, or refuses it, or leaves remains. *)
Lemma archive_cases (c : content) :
  (∃ lines, member c = Some lines ∧ refusal c = None ∧ remains c = None) ∨
  (∃ e, member c = None ∧ refusal c = Some e ∧ remains c = None) ∨
  (∃ written e, member c = None ∧ refusal c = None ∧
                remains c = Some (written, e)).
Proof.
  destruct c as [lines|members|]; simpl; [right; left; by eexists| |
                                          right; left; by eexists].
  destruct (members !! GLOVE_TXT) as [[lines|written d|l]|]; simpl.
  - left. by eexists.
  - right. right. by eexists _, _.
  - right. left. by eexists.
  - right. left. by eexists.
Qed.

(** The extraction, by what the archive in place is. *)
Lemma extract_eq (fs : gmap string content) (c : content) :
  fs !! GLOVE_ZIP = Some c →
  extract fs =
    match member c, refusal c, remains c with
    | Some lines, _, _ =>
        (<[GLOVE_TXT := Text lines]> fs, [WriteFile GLOVE_TXT], Ok tt)
    | None, Some e, _ => (fs, [], Raise e)
    | None, None, Some (written, e) =>
        (<[GLOVE_TXT := Text written]> fs, [WriteFile GLOVE_TXT], Raise e)
    | None, None, None => (fs, [], Raise BadZipFile)
    end.
Proof.
  intros Hzip. unfold extract. rewrite Hzip.
  destruct c as [lines|members|]; simpl; [done| |done].
  by destruct (members !! GLOVE_TXT) as [[lines|written d|l]|].
Qed.

(** The call when the text file is missing and an archive is in place: no
    use of the network, and the archive decides. *)
Lemma download_glove_zip (net : response) (fs : gmap string content)
    (c : content) :
  fs !! GLOVE_TXT = None → fs !! GLOVE_ZIP = Some c →
  download_glove net fs =
    match member c, refusal c, remains c with
    | Some lines, _, _ =>
        (<[GLOVE_TXT := Text lines]> fs,
         [Print Extracting; WriteFile GLOVE_TXT; Print Extracted], Ok tt)
    | None, Some e, _ => (fs, [Print Extracting], Raise e)
    | None, None, Some (written, e) =>
        (<[GLOVE_TXT := Text written]> fs,
         [Print Extracting; WriteFile GLOVE_TXT], Raise e)
    | None, None, None => (fs, [Print Extracting], Raise BadZipFile)
    end.
Proof.
  intros Htxt Hzip. unfold download_glove.
  rewrite (proj2 (exists_false _ _) Htxt).
  rewrite (proj2 (exists_true GLOVE_ZIP fs)) by (by eexists).
  simpl. rewrite (extract_eq fs c Hzip).
  destruct (member c), (refusal c), (remains c) as [[w x]|]; done.
Qed.

(** The call when neither file is in place and the server sends a file. *)
Lemma download_glove_served (c : content) (fs : gmap string content) :
  fs !! GLOVE_TXT = None → fs !! GLOVE_ZIP = None →
  download_glove (Served c) fs =
    match member c, refusal c, remains c with
    | Some lines, _, _ =>
        (<[GLOVE_TXT := Text lines]> (<[GLOVE_ZIP := c]> fs),
         [Print Downloading; Fetch GLOVE_URL; WriteFile GLOVE_ZIP;
          Print DownloadComplete; Print Extracting; WriteFile GLOVE_TXT;
          Print Extracted], Ok tt)
    | None, Some e, _ =>
        (<[GLOVE_ZIP := c]> fs,
         [Print Downloading; Fetch GLOVE_URL; WriteFile GLOVE_ZIP;
          Print DownloadComplete; Print Extracting], Raise e)
    | None, None, Some (written, e) =>
        (<[GLOVE_TXT := Text written]> (<[GLOVE_ZIP := c]> fs),
         [Print Downloading; Fetch GLOVE_URL; WriteFile GLOVE_ZIP;
          Print DownloadComplete; Print Extracting; WriteFile GLOVE_TXT],
         Raise e)
    | None, None, None =>
        (<[GLOVE_ZIP := c]> fs,
         [Print Downloading; Fetch GLOVE_URL; WriteFile GLOVE_ZIP;
          Print DownloadComplete; Print Extracting], Raise BadZipFile)
    end.
Proof.
  intros Htxt Hzip. unfold download_glove.
  rewrite (proj2 (exists_false _ _) Htxt), (proj2 (exists_false _ _) Hzip).
  simpl. rewrite (extract_eq _ c (lookup_insert_eq _ _ _)).
  destruct (member c), (refusal c), (remains c) as [[w x]|]; done.
Qed.

(** The call when neither file is in place and the server sends no file. *)
Lemma download_glove_unserved (net : response) (fs : gmap string content) :
  fs !! GLOVE_TXT = None → fs !! GLOVE_ZIP = None →
  (∀ c, net ≠ Served c) →
  download_glove net fs =
    match net with
    | NoConnection =>
        (fs, [Print Downloading; Fetch GLOVE_URL], Raise URLError)
    | ZeroLength =>
        (<[GLOVE_ZIP := Stump]> fs,
         [Print Downloading; Fetch GLOVE_URL; WriteFile GLOVE_ZIP],
         Raise ZeroDivisionError)
    | _ =>
        (<[GLOVE_ZIP := Stump]> fs,
         [Print Downloading; Fetch GLOVE_URL; WriteFile GLOVE_ZIP],
         Raise ContentTooShortError)
    end.
Proof.
  intros Htxt Hzip Hnet. unfold download_glove.
  rewrite (proj2 (exists_false _ _) Htxt), (proj2 (exists_false _ _) Hzip).
  destruct net as [| | |c]; simpl; [done..|]. by destruct (Hnet c).
Qed.

End ArchiveFacts.

(** X12: a call returns if and only if the text file is in place, or the
    archive it works on, the one in place or without one the one the server
    sends, is an archive that has the text file as a member and gives it
    whole; a call that returns without having found the text file leaves
    the lines of that member as the text file. *)
Theorem download_returns_iff (net : response) (fs : gmap string content) :
  ((download_glove net fs).2 = Ok tt ↔
   is_Some (fs !! GLOVE_TXT) ∨
   ∃ c lines, consulted net fs = Some c ∧ member c = Some lines) ∧
  (∀ c lines,
     fs !! GLOVE_TXT = None → consulted net fs = Some c →
     member c = Some lines →
     (download_glove net fs).1.1 !! GLOVE_TXT = Some (Text lines)).
Proof.
  unfold consulted.
  destruct (fs !! GLOVE_TXT) as [t|] eqn:Htxt.
  { rewrite download_glove_present by (by rewrite Htxt; eexists).
    split; [|done]. split; [intros _; left; by eexists|done]. }
  destruct (fs !! GLOVE_ZIP) as [c|] eqn:Hzip.
  - rewrite (download_glove_zip net fs c Htxt Hzip). split.
    + destruct (archive_cases c) as [(l & Hm & _)|[(e & Hm & Hr & _)|
                                     (w & e & Hm & Hr & Hx)]];
        rewrite Hm, ?Hr, ?Hx; simpl.
      * split; [intros _; right; by exists c, l|done].
      * split; [done|]. intros [[? [=]]|(c' & lines & [= <-] & Hm')].
        congruence.
      * split; [done|]. intros [[? [=]]|(c' & lines & [= <-] & Hm')].
        congruence.
    + intros c' lines _ [= <-] ->. simpl. by rewrite lookup_insert_eq.
  - destruct net as [| | |c].
    + rewrite download_glove_unserved by done. simpl. split; [|done].
      split; [done|]. by intros [[? [=]]|(c' & lines & [=] & _)].
    + rewrite download_glove_unserved by done. simpl. split; [|done].
      split; [done|]. by intros [[? [=]]|(c' & lines & [=] & _)].
    + rewrite download_glove_unserved by done. simpl. split; [|done].
      split; [done|]. by intros [[? [=]]|(c' & lines & [=] & _)].
    + rewrite (download_glove_served c fs Htxt Hzip). split.
      * destruct (archive_cases c) as [(l & Hm & _)|[(e & Hm & Hr & _)|
                                       (w & e & Hm & Hr & Hx)]];
          rewrite Hm, ?Hr, ?Hx; simpl.
        -- split; [intros _; right; by exists c, l|done].
        -- split; [done|]. intros [[? [=]]|(c' & lines & [= <-] & Hm')].
           congruence.
        -- split; [done|]. intros [[? [=]]|(c' & lines & [= <-] & Hm')].
           congruence.
      * intros c' lines _ [= <-] ->. simpl. by rewrite lookup_insert_eq.
Qed.

(** In an empty directory, with a server that sends the archive. *)
Lemma download_returns_iff_witness :
  (download_glove (Served Sample.archive) ∅).1.1 !! GLOVE_TXT
  = Some (Text Sample.three).
Proof.
  destruct (download_returns_iff (Served Sample.archive) ∅) as [_ H].
  apply (H Sample.archive Sample.three); reflexivity.
Defined.

Lemma download_glove_frame (net : response) (fs : gmap string content) :
  fs ⊆ (download_glove net fs).1.1 ∧
  dom (download_glove net fs).1.1 ⊆ dom fs ∪ {[GLOVE_ZIP; GLOVE_TXT]} ∧
  (is_Some (fs !! GLOVE_ZIP) → fetches (download_glove net fs).1.2 = 0%nat).
Proof.
  destruct (fs !! GLOVE_TXT) as [t|] eqn:Htxt.
  { rewrite download_glove_present by (by rewrite Htxt; eexists).
    simpl. split_and!; [done|set_solver|done]. }
  destruct (fs !! GLOVE_ZIP) as [c|] eqn:Hzip.
  - rewrite (download_glove_zip net fs c Htxt Hzip).
    destruct (member c), (refusal c), (remains c) as [[w x]|];
      simpl; split_and!; try done; try set_solver.
    all: by apply insert_subseteq.
  - assert (fs ⊆ <[GLOVE_ZIP := Stump]> fs) by (by apply insert_subseteq).
    destruct net as [| | |c];
      [rewrite download_glove_unserved by done; simpl;
       split_and!; try done; try set_solver; by intros [? [=]]..|].
    rewrite (download_glove_served c fs Htxt Hzip).
    assert (fs ⊆ <[GLOVE_ZIP := c]> fs) by (by apply insert_subseteq).
    destruct (member c), (refusal c), (remains c) as [[w x]|];
      simpl; split_and!; try done; try set_solver.
    all: try by intros [? [=]].
    all: etrans; [done|]; apply insert_subseteq; by rewrite lookup_insert_ne.
Qed.

(** X13: a call never removes a file and never changes one that is in
    place: what the directory held it still holds; the only paths a call can
    create are those of the archive and of the text file; and with the
    archive in place the network is not used. *)
Theorem download_keeps_files (net : response) (fs : gmap string content) :
  fs ⊆ (download_glove net fs).1.1 ∧
  dom (download_glove net fs).1.1 ⊆ dom fs ∪ {[GLOVE_ZIP; GLOVE_TXT]} ∧
  (is_Some (fs !! GLOVE_ZIP) → fetches (download_glove net fs).1.2 = 0%nat).
Proof. apply download_glove_frame. Qed.

(** With an archive in place that lacks the member: nothing is fetched. *)
Lemma download_keeps_files_witness :
  fetches (download_glove (Served Sample.archive)
             {[ GLOVE_ZIP := Archive ∅ ]}).1.2 = 0%nat.
Proof.
  destruct (download_keeps_files (Served Sample.archive)
              {[ GLOVE_ZIP := Archive ∅ ]}) as (_ & _ & H).
  apply H. by eexists.
Defined.

(** X14: with the text file missing, a file in place of the archive that
    is no archive, or that lacks the text file, or whose text file cannot be
    opened, is never replaced: every call fails on it in the same way,
    whatever the server would send, without using the network and without
    touching the directory.  That is the state in which a transfer that was
    cut short, or a reply that announced no bytes, leaves the directory:
    after it every call raises [BadZipFile]. *)
Theorem bad_archive_sticks (fs : gmap string content) :
  fs !! GLOVE_TXT = None →
  (∀ net c e, fs !! GLOVE_ZIP = Some c → refusal c = Some e →
     download_glove net fs = (fs, [Print Extracting], Raise e)) ∧
  (fs !! GLOVE_ZIP = None →
   ∀ first net,
     first = CutShort ∨ first = ZeroLength →
     (download_glove first fs).2
     = Raise (match first with
              | ZeroLength => ZeroDivisionError
              | _ => ContentTooShortError
              end) ∧
     download_glove net (download_glove first fs).1.1
     = ((download_glove first fs).1.1, [Print Extracting],
        Raise BadZipFile)).
Proof.
  intros Htxt. split.
  - intros net c e Hzip Hr.
    rewrite (download_glove_zip net fs c Htxt Hzip), Hr.
    destruct (archive_cases c) as [(l & _ & Hr' & _)|[(e' & -> & _)|
                                   (w & e' & _ & Hr' & _)]];
      [congruence|done|congruence].
  - intros Hzip first net Hfirst.
    rewrite (download_glove_unserved first fs Htxt Hzip)
      by (by destruct Hfirst as [-> | ->]).
    assert (download_glove net (<[GLOVE_ZIP := Stump]> fs)
            = (<[GLOVE_ZIP := Stump]> fs, [Print Extracting], Raise BadZipFile))
      as Hstump.
    { rewrite (download_glove_zip net _ Stump); [done| |].
      - by rewrite lookup_insert_ne.
      - by rewrite lookup_insert_eq. }
    by destruct Hfirst as [-> | ->].
Qed.

(** In an empty directory: the transfer is cut, the next call finds the
    stump and does not ask the server again. *)
Lemma bad_archive_sticks_witness :
  download_glove (Served Sample.archive) {[ GLOVE_ZIP := Stump ]}
  = ({[ GLOVE_ZIP := Stump ]}, [Print Extracting], Raise BadZipFile).
Proof.
  destruct (bad_archive_sticks ∅ (lookup_empty _)) as [_ H].
  destruct (H (lookup_empty _) CutShort (Served Sample.archive)
              (or_introl eq_refl)) as [_ H2].
  exact H2.
Defined.

(** X20: a member with damaged data does not stay a failure.  With the text
    file missing and such an archive in place, a call raises, but only after
    it has created the text file with what came out of the member; the next
    call finds that file, takes it for the text file and returns at once,
    without extracting again and without using the network. *)
Theorem damaged_member_passes_next
    (net1 net2 : response) (fs : gmap string content) (c : content)
    (written : list string) (e : exn) :
  fs !! GLOVE_TXT = None →
  fs !! GLOVE_ZIP = Some c →
  remains c = Some (written, e) →
  download_glove net1 fs
  = (<[GLOVE_TXT := Text written]> fs,
     [Print Extracting; WriteFile GLOVE_TXT], Raise e) ∧
  download_glove net2 (<[GLOVE_TXT := Text written]> fs)
  = (<[GLOVE_TXT := Text written]> fs, [Print AlreadyExists], Ok tt).
Proof.
  intros Htxt Hzip Hrem. split.
  - rewrite (download_glove_zip net1 fs c Htxt Hzip), Hrem.
    destruct (archive_cases c) as [(l & _ & _ & Hr)|[(e' & _ & _ & Hr)|
                                   (w & e' & -> & -> & _)]];
      [congruence..|done].
  - apply download_glove_present. rewrite lookup_insert_eq. by eexists.
Qed.

(** With an archive in place whose text file has a broken stream after two
    lines. *)
Lemma damaged_member_passes_next_witness :
  download_glove NoConnection
    {[ GLOVE_ZIP := Archive {[ GLOVE_TXT := Damaged (take 2 Sample.three) BadStream ]} ]}
  = (<[GLOVE_TXT := Text (take 2 Sample.three)]>
       {[ GLOVE_ZIP := Archive {[ GLOVE_TXT := Damaged (take 2 Sample.three) BadStream ]} ]},
     [Print Extracting; WriteFile GLOVE_TXT], Raise ZlibError).
Proof.
  apply (damaged_member_passes_next NoConnection NoConnection _
           (Archive {[ GLOVE_TXT := Damaged (take 2 Sample.three) BadStream ]})
           (take 2 Sample.three) ZlibError); reflexivity.
Defined.

(** ** The script as a whole *)

Section MainFacts.
Variable read_lines : option content → result (list string).

#[local] Abbreviation main := (main read_lines).
#[local] Abbreviation generate_subset_on := (generate_subset_on read_lines).

(** What [generate_subset] does to the directory. *)
Lemma generate_subset_on_spec (d : disk) :
  files (generate_subset_on d).1.1 = files d ∧
  fetches (generate_subset_on d).1.2 = 0%nat ∧
  (∀ e, (generate_subset_on d).2 = Raise e → (generate_subset_on d).1.1 = d) ∧
  (∀ o, (generate_subset_on d).2 = Ok o →
        output (generate_subset_on d).1.1 = Some (output_file o) ∧
        (generate_subset_on d).1.2 = [WriteFile OUTPUT_FILE] ∧
        ∃ lines, read_lines (files d !! GLOVE_TXT) = Ok lines ∧
                 generate_subset lines = Ok o).
Proof.
  unfold Script.generate_subset_on.
  destruct (read_lines (files d !! GLOVE_TXT)) as [lines|]; [|done].
  destruct (generate_subset lines) as [o|] eqn:Ho; [|done].
  simpl. split_and!; [done..|]. intros o' [= <-]. eauto.
Qed.

Lemma main_eq (net : response) (d : disk) :
  main net d =
    match (download_glove net (files d)).2 with
    | Ok _ =>
        let d1 := {| files := (download_glove net (files d)).1.1;
                     output := output d |} in
        ((generate_subset_on d1).1.1,
         (download_glove net (files d)).1.2 ++ (generate_subset_on d1).1.2,
         (generate_subset_on d1).2)
    | Raise e =>
        ({| files := (download_glove net (files d)).1.1; output := output d |},
         (download_glove net (files d)).1.2, Raise e)
    end.
Proof.
  unfold Script.main.
  destruct (download_glove net (files d)) as [[fs1 log1] [[]|e]]; simpl; [|done].
  by destruct (Script.generate_subset_on _ _) as [[d2 log2] r2].
Qed.

End MainFacts.

(** X15: the script writes its output in one piece or not at all: when it
    raises, in the download or in the extraction, the output file is as it
    was before; when it returns, the output file holds the document of the
    table, which reads back as the table built from the lines of the text
    file now in the directory. *)
Theorem main_output_whole
    (read_lines : option content → result (list string))
    (net : response) (d : disk) :
  (∀ e, (main read_lines net d).2 = Raise e →
        output (main read_lines net d).1.1 = output d) ∧
  (∀ o, (main read_lines net d).2 = Ok o →
        output (main read_lines net d).1.1 = Some (output_file o) ∧
        load (output_file o) = Some (table o) ∧
        ∃ lines,
          read_lines (files (main read_lines net d).1.1 !! GLOVE_TXT) = Ok lines ∧
          generate_subset lines = Ok o).
Proof.
  rewrite main_eq.
  destruct (download_glove net (files d)) as [[fs1 log1] [[]|e1]]; simpl.
  - set (d1 := {| files := fs1; output := output d |}).
    destruct (generate_subset_on_spec read_lines d1) as (Hf & _ & Hraise & Hok).
    split.
    + intros e He. by rewrite (Hraise e He).
    + intros o Ho. destruct (Hok o Ho) as (Hout & _ & lines & Hread & Hgen).
      split_and!; [done| |].
      * destruct (generate_subset_with_Ok _ _ _ _ Hgen) as (st & _ & _ & ->).
        apply load_dump.
      * exists lines. by rewrite Hf.
  - split; [done|]. by intros o [=].
Qed.

(** With nothing in the directory but an old output file, and no
    connection: the old output file stays. *)
Lemma main_output_whole_witness :
  output (main read_strict NoConnection
            {| files := ∅; output := Some (JArray []) |}).1.1
  = Some (JArray []).
Proof.
  destruct (main_output_whole read_strict NoConnection
              {| files := ∅; output := Some (JArray []) |}) as [H _].
  apply (H URLError). reflexivity.
Defined.

(** X16: the script can be run again: after a run that returned, a second
    run, whatever the server would do, uses no network, builds the same
    table, writes the same output file and leaves the directory as the
    first run left it. *)
Theorem main_again
    (read_lines : option content → result (list string))
    (net1 net2 : response) (d d1 : disk) (log1 : list effect) (o : outcome) :
  main read_lines net1 d = (d1, log1, Ok o) →
  main read_lines net2 d1
  = (d1, [Print AlreadyExists; WriteFile OUTPUT_FILE], Ok o).
Proof.
  rewrite (main_eq read_lines net1).
  destruct (download_glove net1 (files d)) as [[fs1 l1] [[]|e1]] eqn:Hd;
    simpl; [|done].
  set (d0 := {| files := fs1; output := output d |}).
  pose proof (generate_subset_on_spec read_lines d0) as (Hf & _ & _ & Hok).
  destruct (Script.generate_subset_on read_lines d0) as [[d' l'] r'] eqn:Hg.
  simpl in *. intros [= -> <- ->].
  destruct (Hok o eq_refl) as (Hout & _ & lines & Hread & Hgen).
  pose proof (download_glove_present net2 _ (download_glove_Ok _ _ _ _ Hd)) as Hp.
  assert (files d1 = fs1) as Hfs by done.
  unfold Script.main. rewrite Hfs, Hp. unfold Script.generate_subset_on.
  simpl. rewrite Hread, Hgen. simpl.
  destruct d1 as [f1 o1]. simpl in *. by rewrite Hfs, Hout.
Qed.

(** In an empty directory, with a server that sends the archive first and
    is out of reach afterwards. *)
Lemma main_again_witness :
  ∃ d1 o,
    (main read_strict (Served Sample.archive) {| files := ∅; output := None |}).1.1
    = d1 ∧
    main read_strict NoConnection d1
    = (d1, [Print AlreadyExists; WriteFile OUTPUT_FILE], Ok o).
Proof.
  destruct (main read_strict (Served Sample.archive)
              {| files := ∅; output := None |}) as [[d1 log1] [o|e]] eqn:Hm;
    [|vm_compute in Hm; discriminate].
  exists d1, o. split; [reflexivity|].
  exact (main_again read_strict (Served Sample.archive) NoConnection _ d1 log1 o Hm).
Defined.

(** X17: the script uses the network at most once, and not at all when the
    text file or the archive is in place; and it never removes or changes a
    file that was in the directory, the output file apart. *)
Theorem main_network_and_files
    (read_lines : option content → result (list string))
    (net : response) (d : disk) :
  (fetches (main read_lines net d).1.2 ≤ 1)%nat ∧
  (is_Some (files d !! GLOVE_TXT) ∨ is_Some (files d !! GLOVE_ZIP) →
   fetches (main read_lines net d).1.2 = 0%nat) ∧
  files d ⊆ files (main read_lines net d).1.1.
Proof.
  rewrite main_eq.
  pose proof (download_glove_fetches net (files d)) as Hle.
  pose proof (download_glove_frame net (files d)) as (Hsub & _ & Hzip).
  assert (is_Some (files d !! GLOVE_TXT) ∨ is_Some (files d !! GLOVE_ZIP) →
          fetches (download_glove net (files d)).1.2 = 0%nat) as Hnone.
  { intros [Htxt|Hz]; [|by apply Hzip].
    by rewrite (download_glove_present _ _ Htxt). }
  destruct (download_glove net (files d)) as [[fs1 log1] [[]|e1]]; simpl in *.
  - set (d1 := {| files := fs1; output := output d |}).
    destruct (generate_subset_on_spec read_lines d1) as (Hf & Hfetch & _).
    rewrite fetches_app, Hfetch, Hf. split_and!; [lia| |done].
    intros H. rewrite (Hnone H). done.
  - done.
Qed.

(** With the archive in place: the text file is extracted, not fetched. *)
Lemma main_network_and_files_witness :
  fetches (main read_strict NoConnection
             {| files := {[ GLOVE_ZIP := Sample.archive ]}; output := None |}).1.2
  = 0%nat.
Proof.
  destruct (main_network_and_files read_strict NoConnection
              {| files := {[ GLOVE_ZIP := Sample.archive ]}; output := None |})
    as (_ & H & _).
  apply H. right. by eexists.
Defined.

(** ** Files in the format of the vectors *)

Section DecimalFacts.

(** What a digit is not. *)
Lemma digit_char (c : ascii) :
  isdigit c = true →
  is_underscore c = false ∧ Str.isspace c = false ∧ lower c = c ∧
  Ascii.eqb c "i" = false ∧ Ascii.eqb c "n" = false ∧
  (∀ s, parse_sign (String c s) = (false, String c s)) ∧
  (∃ d, digit c = Some d).
Proof.
  destruct c as [[] [] [] [] [] [] [] []]; try discriminate;
    intros _; split_and!; try reflexivity; by eexists.
Qed.

Lemma all_digits_solid (s : string) : all_digits s = true → solid s = true.
Proof.
  induction s as [|c s IH]; simpl; [done|].
  intros [Hc Hs]%andb_true_iff.
  destruct (digit_char c Hc) as (_ & -> & _). by rewrite IH.
Qed.

Lemma no_underscore_append (s1 s2 : string) :
  no_underscore (s1 +:+ s2) = no_underscore s1 && no_underscore s2.
Proof.
  induction s1 as [|c s1 IH]; [done|].
  rewrite append_cons. simpl. by rewrite IH, andb_assoc.
Qed.

Lemma all_digits_no_underscore (s : string) :
  all_digits s = true → no_underscore s = true.
Proof.
  induction s as [|c s IH]; simpl; [done|].
  intros [Hc Hs]%andb_true_iff.
  destruct (digit_char c Hc) as (-> & _). by rewrite IH.
Qed.

Lemma strip_underscores_none (prev : ascii) (s : string) :
  is_underscore prev = false → no_underscore s = true →
  strip_underscores prev s = Some s.
Proof.
  revert prev. induction s as [|c s IH]; intros prev Hp; simpl.
  - by rewrite Hp.
  - intros [Hc Hs]%andb_true_iff. apply negb_true_iff in Hc.
    rewrite Hc, Hp. simpl. by rewrite IH.
Qed.

(** What [float] takes off is whitespace for [split] too. *)
Lemma float_isspace_solid (c : ascii) :
  Str.isspace c = false → Float.isspace c = false.
Proof.
  destruct c as [[] [] [] [] [] [] [] []]; try discriminate; reflexivity.
Qed.

Lemma float_strip_solid (s : string) : solid s = true → Float.strip s = s.
Proof.
  intros Hs. unfold Float.strip.
  assert (Float.lstrip s = s) as ->.
  { destruct s as [|c s]; [done|]. simpl in *.
    apply andb_true_iff in Hs as [Hc _]. apply negb_true_iff in Hc.
    by rewrite (float_isspace_solid c Hc). }
  induction s as [|c s IH]; simpl; [done|]. simpl in Hs.
  apply andb_true_iff in Hs as [Hc Hs]. apply negb_true_iff in Hc.
  rewrite IH by done. destruct s; [|done].
  by rewrite (float_isspace_solid c Hc).
Qed.

(** Digits are read up to the first character that is none. *)
Lemma span_digits_append (acc n : Z) (digits rest : string) :
  all_digits digits = true →
  (∀ c s, rest = String c s → digit c = None) →
  ∃ v, span_digits acc n (digits +:+ rest)
       = (v, n + Z.of_nat (String.length digits), rest).
Proof.
  revert acc n. induction digits as [|c ds IH]; intros acc n Hd Hrest.
  - exists acc. change ("" +:+ rest) with rest. simpl.
    rewrite Z.add_0_r. destruct rest as [|c s]; [done|].
    simpl. by rewrite (Hrest c s).
  - simpl in Hd. apply andb_true_iff in Hd as [Hc Hds].
    destruct (digit_char c Hc) as (_ & _ & _ & _ & _ & _ & d & Hdig).
    rewrite append_cons. simpl. rewrite Hdig.
    destruct (IH (10 * acc + d) (n + 1) Hds Hrest) as [v ->].
    exists v. do 2 f_equal. lia.
Qed.

Lemma parse_exponent_ok (expo : string) :
  exponent expo → ∃ e, parse_exponent expo = Some e.
Proof.
  intros [->|(sign & ds & -> & Hsign & Hne & Hds)]; [by exists 0|].
  change ("e" +:+ sign +:+ ds) with (String "e" (sign +:+ ds)).
  unfold parse_exponent.
  change (Ascii.eqb (lower "e") "e") with true. cbv iota.
  assert (∃ eneg, parse_sign (sign +:+ ds) = (eneg, ds)) as [eneg ->].
  { destruct Hsign as [-> | [-> | ->]]; [|by eexists..].
    change ("" +:+ ds) with ds. destruct ds as [|c ds]; [done|].
    simpl in Hds. apply andb_true_iff in Hds as [Hc _].
    destruct (digit_char c Hc) as (_ & _ & _ & _ & _ & Hsg & _).
    rewrite Hsg. by eexists. }
  destruct (span_digits_append 0 0 ds "" Hds ltac:(done)) as [v Hv].
  rewrite append_nil_r in Hv. rewrite Hv.
  destruct ds as [|c ds]; [done|].
  replace (0 + Z.of_nat (String.length (String c ds)) =? 0) with false.
  - by eexists.
  - symmetry. apply Z.eqb_neq. simpl. lia.
Qed.

Lemma exponent_head (expo : string) (c : ascii) (s : string) :
  exponent expo → expo = String c s → digit c = None ∧ is_underscore c = false.
Proof.
  intros [->|(sign & ds & -> & _)]; [done|].
  change ("e" +:+ sign +:+ ds) with (String "e" (sign +:+ ds)).
  by intros [= <- _].
Qed.

Lemma exponent_clean (expo : string) :
  exponent expo → no_underscore expo = true ∧ solid expo = true.
Proof.
  intros [->|(sign & ds & -> & Hsign & _ & Hds)]; [done|].
  rewrite !no_underscore_append, !solid_append.
  rewrite (all_digits_no_underscore _ Hds), (all_digits_solid _ Hds).
  by destruct Hsign as [-> | [-> | ->]].
Qed.

(** [float] takes a number in the format of the files. *)
Lemma decimal_numeric (token : string) : decimal token → numeric token.
Proof.
  intros (neg & whole & frac & expo & -> & Hne & Hw & Hf & He).
  destruct (exponent_clean expo He) as [Heu Hes].
  set (rest := whole +:+ "." +:+ frac +:+ expo).
  assert (no_underscore rest = true ∧ solid rest = true) as [Hru Hrs].
  { unfold rest. rewrite !no_underscore_append, !solid_append.
    rewrite (all_digits_no_underscore _ Hw), (all_digits_no_underscore _ Hf),
      (all_digits_solid _ Hw), (all_digits_solid _ Hf), Heu, Hes. done. }
  assert (∃ d tail, rest = String d tail ∧ isdigit d = true)
    as (d & tail & Hrest & Hd).
  { unfold rest. destruct whole as [|d w]; [done|]. rewrite append_cons.
    simpl in Hw. apply andb_true_iff in Hw as [Hd _]. eauto. }
  destruct (digit_char d Hd) as (_ & _ & Hlow & Hi & Hn & Hsg & _).
  assert (parse_decimal neg rest ≠ None) as Hdec.
  { unfold parse_decimal, rest.
    destruct (span_digits_append 0 0 whole ("." +:+ frac +:+ expo) Hw) as [i ->].
    { change ("." +:+ frac +:+ expo) with (String "." (frac +:+ expo)).
      by intros c s [= <- _]. }
    change ("." +:+ frac +:+ expo) with (String "." (frac +:+ expo)).
    destruct (span_digits_append i 0 frac expo Hf) as [m ->].
    { intros c s Hc. by apply (exponent_head expo c s He). }
    replace (0 + Z.of_nat (String.length whole) +
             (0 + Z.of_nat (String.length frac)) =? 0) with false.
    - destruct (parse_exponent_ok expo He) as [e ->]. done.
    - symmetry. apply Z.eqb_neq. destruct whole; [done|]. simpl. lia. }
  assert (parse_inf_or_nan neg rest = None) as Hinf.
  { unfold parse_inf_or_nan. rewrite Hrest. simpl. rewrite Hlow.
    unfold String.eqb. by rewrite Hi, Hn. }
  unfold numeric, returns, py_float.
  assert (∃ s, (if neg then "-" else "") +:+ rest = s ∧
               strip_underscores "000" s = Some s ∧ Float.strip s = s ∧
               parse_sign s = (neg, rest)) as (s & -> & -> & Hstrip & Hsign).
  { destruct neg.
    - exists (String "-" rest). split_and!; [done| | |done].
      + apply strip_underscores_none; [done|]. simpl. by rewrite Hru.
      + apply float_strip_solid. simpl. by rewrite Hrs.
    - exists rest. split_and!; [done| | |].
      + by apply strip_underscores_none.
      + by apply float_strip_solid.
      + by rewrite Hrest, Hsg. }
  simpl. rewrite Hstrip, Hsign, Hinf.
  destruct (parse_decimal neg rest) as [x|]; [by eexists|done].
Qed.

Lemma decimal_token (token : string) : decimal token → is_token token.
Proof.
  intros (neg & whole & frac & expo & -> & Hne & Hw & Hf & He).
  destruct (exponent_clean expo He) as [_ Hes]. split.
  - destruct neg; [done|]. change ("" +:+ ?s) with s.
    destruct whole; [done|]. by rewrite append_cons.
  - rewrite !solid_append, (all_digits_solid _ Hw), (all_digits_solid _ Hf), Hes.
    by destruct neg.
Qed.

End DecimalFacts.

Section FormatFacts.

Lemma glove_line_parts (line : string) :
  glove_line line →
  ∃ word numbers, parts_of line = word :: numbers ∧ Forall numeric numbers ∧
                  line = unwords (word :: numbers) +:+ String "010" "".
Proof.
  intros (word & numbers & -> & Hword & Hnum). exists word, numbers.
  split_and!; [|by eapply Forall_impl; [|apply decimal_numeric]|done].
  unfold parts_of. rewrite split_strip. apply split_go_unwords.
  constructor; [done|]. eapply Forall_impl; [done|]. apply decimal_token.
Qed.

Lemma glove_lines_return
    (k : Z) (required : gset string) (lines : list string) :
  Forall glove_line lines →
  returns (generate_subset_with k required lines).
Proof.
  intros Hlines. rewrite generate_subset_with_eq.
  assert (returns (loop k required start lines)) as [st ->]; [|by eexists].
  apply loop_returns. intros i line Hi.
  eapply Forall_lookup_1 in Hlines; [|done].
  apply glove_line_parts in Hlines as (word & numbers & Hp & Hnum & _).
  exists word, numbers. by split.
Qed.

End FormatFacts.

(** X18: on a file in the format of the vectors, each line a word, numbers
    written with digits, a point and possibly a sign and an exponent, single
    spaces and a line feed, the run returns: no line raises, whatever the
    threshold and the required words, and whatever the number of numbers on a
    line. *)
Theorem returns_on_vector_files
    (k : Z) (required : gset string) (lines : list string) :
  Forall glove_line lines →
  returns (generate_subset_with k required lines).
Proof. apply glove_lines_return. Qed.

(** On two lines of the format, with two numbers each. *)
Lemma returns_on_vector_files_witness :
  returns (generate_subset_with 1 {["king"]}
             ["the 0.418 -0.24968" +:+ String "010" "";
              "king 1.5e-05 -7." +:+ String "010" ""]).
Proof.
  apply returns_on_vector_files.
  repeat constructor.
  - exists "the", ["0.418"; "-0.24968"]. split_and!; [done..|].
    repeat constructor.
    + exists false, "0", "418", "". split_and!; [done..|by left].
    + exists true, "0", "24968", "". split_and!; [done..|by left].
  - exists "king", ["1.5e-05"; "-7."]. split_and!; [done..|].
    repeat constructor.
    + exists false, "1", "5", "e-05". split_and!; [done..|].
      right. exists "-", "05". split_and!; auto.
    + exists true, "7", "", "". split_and!; [done..|by left].
Defined.

(** X19: on a file in the format of the vectors whose lines all have 50
    numbers, the run returns a table whose keys are exactly the words of the
    first K lines and the required words that the file has, each with a
    vector of 50 numbers, and it writes that table. *)
Theorem vector_file_table
    (k : Z) (required : gset string) (lines : list string) :
  Forall vector_line lines →
  ∃ o, generate_subset_with k required lines = Ok o ∧
       dom (table o) = first_and_required k required lines ∧
       map_Forall (fun _ vec => length vec = 50%nat) (table o) ∧
       load (output_file o) = Some (table o).
Proof.
  intros Hlines.
  assert (Forall glove_line lines) as Hglove.
  { eapply Forall_impl; [done|].
    intros line (word & numbers & ? & ? & ? & _). by exists word, numbers. }
  destruct (glove_lines_return k required lines Hglove) as [o Ho].
  exists o. split; [done|].
  destruct (generate_subset_with_Ok _ _ _ _ Ho) as (st & Hl & Ht & Hout).
  split_and!.
  - apply set_eq. intros word.
    rewrite (generate_subset_with_dom _ _ _ _ _ Ho), elem_of_first_and_required.
    unfold selects. setoid_rewrite keep_iff. split.
    + intros (i & line & Hi & Hw & Hk & _). eauto.
    + intros (i & line & Hi & Hw & Hk). exists i, line. split_and!; try done.
      eapply Forall_lookup_1 in Hlines; [|done].
      destruct Hlines as (w & numbers & Hline & Hword & Hnum & Hlen).
      destruct (glove_line_parts line) as (w' & numbers' & Hp & _ & Hline').
      { by exists w, numbers. }
      unfold dimension. rewrite Hp. simpl.
      assert (w' :: numbers' = w :: numbers) as [= _ ->]; [|done].
      rewrite <- Hp. rewrite Hline. unfold parts_of.
      rewrite split_strip. apply split_go_unwords.
      constructor; [done|]. eapply Forall_impl; [done|]. apply decimal_token.
  - rewrite Ht. by apply (loop_fifty _ _ _ _ _ Hl).
  - rewrite Hout. apply load_dump.
Qed.

(** On the file of three lines. *)
Lemma vector_file_table_witness :
  ∃ o, generate_subset_with 2 {["king"]} Sample.three = Ok o ∧
       dom (table o) = first_and_required 2 {["king"]} Sample.three.
Proof.
  destruct (vector_file_table 2 {["king"]} Sample.three) as (o & Ho & Hd & _).
  - repeat constructor.
    + exists "alpha", (replicate 50 "0.1"). split_and!; [done..| |done].
      apply Forall_replicate. exists false, "0", "1", "".
      split_and!; [done..|by left].
    + exists "beta", (replicate 50 "0.2"). split_and!; [done..| |done].
      apply Forall_replicate. exists false, "0", "2", "".
      split_and!; [done..|by left].
    + exists "king", (replicate 50 "0.1234567"). split_and!; [done..| |done].
      apply Forall_replicate. exists false, "0", "1234567", "".
      split_and!; [done..|by left].
  - exists o. by split.
Defined.
